(** * ttn-redis-converter: payload decoder, config tracker and emitter

    Shallow embedding of [src/ttn-redis-converter/app.py].  Python
    dictionaries are insertion-ordered association lists, the process-wide
    [last_counter_seen] map is a [gmap], the [bitstring] stream is the list
    of bits still to be read, and exceptions/early returns are an explicit
    result type. *)

From Stdlib Require Import ZArith QArith String Ascii List.
From Stdlib.Strings Require Import Byte.
From Stdlib Require Import Sorted.
From stdpp Require Import base option list gmap strings pretty fin_maps.

Local Open Scope string_scope.
Local Open Scope list_scope.
Local Open Scope Z_scope.

(** ** Results: normal completion, logged early [return], raised exception *)

Inductive exn : Type :=
| KeyError (key : string)
| ReadError
| TypeError.

Inductive res (A : Type) : Type :=
| Ok (a : A)
| Dropped
| Raised (e : exn).
Arguments Ok {A} a.
Arguments Dropped {A}.
Arguments Raised {A} e.

#[global] Instance res_ret : MRet res := λ A a, Ok a.
#[global] Instance res_bind : MBind res := λ A B f m,
  match m with
  | Ok a => f a
  | Dropped => Dropped
  | Raised e => Raised e
  end.

#[global] Instance res_fmap : FMap res := λ A B f m,
  match m with
  | Ok a => Ok (f a)
  | Dropped => Dropped
  | Raised e => Raised e
  end.

(** ** Python dicts (insertion ordered) *)

Module Dict.
Section Defs.
Context {K V : Type} `{EqDecision K}.

(** [d[k]] / [d.get(k)] *)
Fixpoint get (k : K) (d : list (K * V)) : option V :=
  match d with
  | [] => None
  | (k', v) :: d' => if decide (k = k') then Some v else get k d'
  end.

(** [d[k] = v]: an existing key keeps its position, a new key goes last *)
Fixpoint set (k : K) (v : V) (d : list (K * V)) : list (K * V) :=
  match d with
  | [] => [(k, v)]
  | (k', v') :: d' =>
      if decide (k = k') then (k', v) :: d' else (k', v') :: set k v d'
  end.

Definition keys (d : list (K * V)) : list K := map fst d.
End Defs.

(** [{v: k for k, v in d.items()}] *)
Definition invert {K V : Type} `{EqDecision V} (d : list (K * V)) : list (V * K) :=
fold_left (λ out kv, set (snd kv) (fst kv) out) d [].
End Dict.

(** ** Bit stream ([bitstring.ConstBitStream]), most significant bit first *)

Definition bits_of_byte (b : byte) : list bool :=
  map (N.testbit (Byte.to_N b)) [7; 6; 5; 4; 3; 2; 1; 0]%N.

Definition bits_of_bytes (payload : list byte) : list bool :=
  concat (map bits_of_byte payload).

Definition uint_of_bits (bs : list bool) : Z :=
  fold_left (λ acc (b : bool), 2 * acc + Z.b2z b) bs 0.

(** two's complement *)
Definition int_of_bits (bs : list bool) : Z :=
  match bs with
  | true :: _ => uint_of_bits bs - 2 ^ Z.of_nat (length bs)
  | _ => uint_of_bits bs
  end.

(** A reader consumes a prefix of the remaining bits; reading past the end
    raises [ReadError]. *)
Definition reader (A : Type) : Type := list bool → res (A * list bool).

#[global] Instance reader_ret : MRet reader := λ A a s, Ok (a, s).
#[global] Instance reader_bind : MBind reader := λ A B f m s,
  match m s with
  | Ok (a, s') => f a s'
  | Dropped => Dropped
  | Raised e => Raised e
  end.

#[global] Instance reader_fmap : FMap reader := λ A B f m s,
  match m s with
  | Ok (a, s') => Ok (f a, s')
  | Dropped => Dropped
  | Raised e => Raised e
  end.

Definition drop_packet {A} : reader A := λ _, Dropped.

Definition read_bits (n : nat) : reader (list bool) := λ s,
  if decide (n ≤ length s)%nat then Ok (take n s, drop n s) else Raised ReadError.

Definition read_bool : reader bool := λ s,
  match s with
  | b :: s' => Ok (b, s')
  | [] => Raised ReadError
  end.

(** [len(stream) - stream.bitpos] *)
Definition stream_remaining : reader nat := λ s, Ok (length s, s).

Definition read_uint (n : nat) : reader Z := uint_of_bits <$> read_bits n.
Definition read_int (n : nat) : reader Z := int_of_bits <$> read_bits n.

(** ** Values *)

(** Keys of a descriptor: strings, or catalog codes after compaction. *)
Inductive pykey : Type := KStr (s : string) | KInt (z : Z).

#[global] Instance pykey_eq_dec : EqDecision pykey.
Proof. solve_decision. Defined.

(** Values stored in descriptors and readings. *)
Inductive pyval : Type :=
| VInt (z : Z)
| VFloat (q : Q)
| VStr (s : string)
| VList (l : list Z).

(** One descriptor or reading: a dict. *)
Abbreviation item := (list (pykey * pyval)).

(** Envelope fields as [json.loads] delivers them.  The converter looks at
    [port], [app_id], [dev_id] and [counter] only; the embedding covers
    envelopes whose fields are JSON integers and strings. *)
Inductive jval : Type := JInt (z : Z) | JStr (s : string).

Abbreviation envelope := (list (string * jval)).

Definition CONFIG_PORT : Z := 1.
Definition DATA_PORT : Z := 2.

(** ** Channel catalog *)

Definition CONFIG_PACKET_KEYS : list (Z * string) :=
  [ (1, "channel_id"); (2, "quantity"); (3, "unit"); (4, "sensor");
    (5, "item_type"); (6, "measured"); (7, "divider") ].

Definition CONFIG_PACKET_VALUES : list (string * list (Z * string)) :=
  [ ("quantity",
      [ (1, "temperature"); (2, "humidity"); (3, "voltage");
        (4, "ambient_light"); (5, "particulate_matter"); (6, "position") ]);
    ("unit",
      [ (1, "degrees_celcius"); (2, "percent_rh"); (3, "volt");
        (4, "ug_per_cubic_meter"); (5, "lux"); (6, "degrees") ]);
    ("sensor", [ (1, "Si2701") ]);
    ("item_type", [ (1, "node"); (2, "channel") ]) ].

Definition CONFIG_PACKET_KEYS_INVERTED : list (string * Z) :=
  Dict.invert CONFIG_PACKET_KEYS.

Definition CONFIG_PACKET_VALUES_INVERTED : list (string * list (string * Z)) :=
  fold_left (λ out kv, Dict.set (fst kv) (Dict.invert (snd kv)) out)
            CONFIG_PACKET_VALUES [].

(** ** Config compactor *)

(** One iteration of the loop of [encode_cbor_obj]. *)
Definition encode_entry (keys : list (string * Z))
    (values : list (string * list (string * Z)))
    (out : item) (kv : pykey * pyval) : item :=
  let '(key, value) := kv in
  let value :=
    match value, key with
    | VStr s, KStr k =>
        match Dict.get k values with
        | Some ((_ :: _) as values_for_this_key) =>
            match Dict.get s values_for_this_key with
            | Some code => VInt code
            | None => value
            end
        | _ => value
        end
    | _, _ => value
    end in
  let key :=
    match key with
    | KStr k => match Dict.get k keys with Some code => KInt code | None => key end
    | KInt _ => key
    end in
  Dict.set key value out.

(** [encode_cbor_obj]; the items of a config list are always dicts, so the
    [isinstance(obj, dict)] guard always passes. *)
Definition encode_cbor_obj (obj : item) (keys : list (string * Z))
    (values : list (string * list (string * Z))) : item :=
  fold_left (encode_entry keys values) obj [].

Definition encode (obj : item) : item :=
  encode_cbor_obj obj CONFIG_PACKET_KEYS_INVERTED CONFIG_PACKET_VALUES_INVERTED.

(** ** Descriptors built at the top of [process_data] *)

Definition node_config : item := [ (KStr "item_type", VStr "node") ].

Definition position_config : item :=
  [ (KStr "item_type", VStr "channel"); (KStr "channel_id", VInt 0);
    (KStr "quantity", VStr "position"); (KStr "unit", VStr "degrees");
    (KStr "divider", VInt 32768) ].

Definition temperature_config : item :=
  [ (KStr "item_type", VStr "channel"); (KStr "channel_id", VInt 1);
    (KStr "quantity", VStr "temperature"); (KStr "unit", VStr "degrees_celsius");
    (KStr "divider", VInt 16) ].

Definition humidity_config : item :=
  [ (KStr "item_type", VStr "channel"); (KStr "channel_id", VInt 2);
    (KStr "quantity", VStr "humidity"); (KStr "unit", VStr "percent_rh");
    (KStr "divider", VInt 16) ].

Definition vcc_config : item :=
  [ (KStr "item_type", VStr "channel"); (KStr "channel_id", VInt 3);
    (KStr "quantity", VStr "voltage"); (KStr "unit", VStr "volt");
    (KStr "measured", VStr "supply"); (KStr "divider", VInt 100);
    (KStr "offset", VInt 1) ].

Definition battery_config : item :=
  [ (KStr "item_type", VStr "channel"); (KStr "channel_id", VInt 4);
    (KStr "quantity", VStr "voltage"); (KStr "unit", VStr "volt");
    (KStr "measured", VStr "battery"); (KStr "divider", VInt 50);
    (KStr "offset", VInt 1) ].

Definition lux_config : item :=
  [ (KStr "item_type", VStr "channel"); (KStr "channel_id", VInt 5);
    (KStr "quantity", VStr "ambient_light"); (KStr "unit", VStr "lux") ].

Definition pm25_config : item :=
  [ (KStr "item_type", VStr "channel"); (KStr "channel_id", VInt 6);
    (KStr "quantity", VStr "particulate_matter");
    (KStr "unit", VStr "ug_per_cubic_meter");
    (KStr "measured:size", VFloat (5 # 2)) ].

Definition pm10_config : item :=
  [ (KStr "item_type", VStr "channel"); (KStr "channel_id", VInt 7);
    (KStr "quantity", VStr "particulate_matter");
    (KStr "unit", VStr "ug_per_cubic_meter");
    (KStr "measured:size", VInt 10) ].

Definition extra_config : item :=
  [ (KStr "item_type", VStr "channel"); (KStr "channel_id", VInt 8) ].

Definition reading (channel_id : Z) (value : pyval) : item :=
  [ (KStr "channel_id", VInt channel_id); (KStr "value", value) ].

(** ** Packet decoder (first part of [process_data]) *)

Record flags : Type := Flags {
  have_supply : bool;
  have_battery : bool;
  have_firmware : bool;
  have_lux : bool;
  have_pm : bool;
  have_extra : bool
}.

(** [port == n] for an envelope field *)
Definition port_is (port : jval) (n : Z) : bool :=
  match port with
  | JInt z => bool_decide (z = n)
  | JStr _ => false
  end.

(** The [if port == 10 ... elif ... else] cascade: the presence flags and
    the (possibly updated) ambient-light descriptor.  Only port 13 reads
    from the stream here. *)
Definition select_variant (port : jval) (length : nat) : reader (flags * item) :=
  if port_is port 10 then
    if decide (length = 9%nat) then
      mret (Flags false false false false false false, lux_config)
    else if decide (length = 10%nat) then
      mret (Flags true false false false false false, lux_config)
    else if decide (length = 11%nat) then
      mret (Flags true true false false false false, lux_config)
    else drop_packet
  else if port_is port 11 then
    if decide (length = 11%nat) then
      mret (Flags true false true false false false, lux_config)
    else if decide (length = 12%nat) then
      mret (Flags true true true false false false, lux_config)
    else if decide (length = 15%nat) then
      mret (Flags true false true false true false, lux_config)
    else if decide (length = 16%nat) then
      mret (Flags true true true false true false, lux_config)
    else drop_packet
  else if port_is port 12 then
    if decide (length = 13%nat) then
      mret (Flags true false true true false false, lux_config)
    else if decide (length = 14%nat) then
      mret (Flags true true true true false false, lux_config)
    else if decide (length = 17%nat) then
      mret (Flags true false true true true false, lux_config)
    else if decide (length = 18%nat) then
      mret (Flags true true true true true false, lux_config)
    else drop_packet
  else if port_is port 13 then
    lux ← read_bool;
    pm ← read_bool;
    battery ← read_bool;
    _ ← read_uint 4;
    extra ← read_bool;
    mret (Flags true battery true lux pm extra,
          Dict.set (KStr "divider") (VInt 4) lux_config)
  else drop_packet.

(** The [while stream.bitpos < len(stream)] loop.  Every round that does
    not leave the loop consumes at least six bits, so [fuel] equal to the
    number of remaining bits is never exhausted (see [read_extras_fuel]). *)
Fixpoint read_extras_loop (fuel : nat) (extra_value : list Z) : reader (list Z) :=
  match fuel with
  | O => mret extra_value
  | S fuel' =>
      remaining ← stream_remaining;
      if decide (0 < remaining)%nat then
        if decide (remaining < 5)%nat then mret extra_value
        else
          size ← read_uint 5;
          let bits := Z.to_nat (size + 1) in
          remaining ← stream_remaining;
          if decide (remaining < bits)%nat then mret extra_value
          else
            value ← read_uint bits;
            read_extras_loop fuel' (extra_value ++ [value])
      else mret extra_value
  end.

Definition read_extras : reader (list Z) :=
  remaining ← stream_remaining;
  read_extras_loop remaining [].

(** Field extraction, in stream order.  [config[0]] is the very object
    [node_config], so the firmware version stored into [node_config] shows
    up in the head of the config list. *)
Definition decode_fields (f : flags) (lux_config : item)
  : reader (list item * list item) :=
  node_config ←
    (if have_firmware f then
       fw ← read_uint 8;
       mret (Dict.set (KStr "firmware_version") (VInt fw) node_config)
     else mret node_config);
  let config := [node_config; position_config; temperature_config; humidity_config] in
  let data := [] in
  lat ← read_int 24;
  lon ← read_int 24;
  let data := data ++ [reading 0 (VList [lat; lon])] in
  temperature ← read_int 12;
  let data := data ++ [reading 1 (VInt temperature)] in
  humidity ← read_int 12;
  let data := data ++ [reading 2 (VInt humidity)] in
  '(config, data) ←
    (if have_supply f then
       v ← read_uint 8;
       mret (config ++ [vcc_config], data ++ [reading 3 (VInt v)])
     else mret (config, data));
  '(config, data) ←
    (if have_lux f then
       v ← read_uint 16;
       mret (config ++ [lux_config], data ++ [reading 5 (VInt v)])
     else mret (config, data));
  '(config, data) ←
    (if have_pm f then
       v25 ← read_uint 16;
       v10 ← read_uint 16;
       mret (config ++ [pm25_config] ++ [pm10_config],
             data ++ [reading 6 (VInt v25)] ++ [reading 7 (VInt v10)])
     else mret (config, data));
  '(config, data) ←
    (if have_battery f then
       v ← read_uint 8;
       mret (config ++ [battery_config], data ++ [reading 4 (VInt v)])
     else mret (config, data));
  '(config, data) ←
    (if have_extra f then
       extra_value ← read_extras;
       mret (config ++ [extra_config], data ++ [reading 8 (VList extra_value)])
     else mret (config, data));
  mret (config, data).

Definition decode_stream (port : jval) (length : nat)
  : reader (list item * list item) :=
  '(f, lux_config) ← select_variant port length;
  decode_fields f lux_config.

(** The config and data lists that [process_data] has built when it
    reaches the counter check. *)
Definition decode_packet (port : jval) (payload : list byte)
  : res (list item * list item) :=
  fst <$> decode_stream port (length payload) (bits_of_bytes payload).

(** ** Node identity and frame counters *)

(** [str(v)] as used by [str.format] *)
Definition py_str (v : jval) : string :=
  match v with
  | JStr s => s
  | JInt z => pretty z
  end.

Definition field (key : string) (msg_obj : envelope) : res jval :=
  match Dict.get key msg_obj with
  | Some v => Ok v
  | None => Raised (KeyError key)
  end.

Definition make_ttn_node_id (msg : envelope) : res string :=
  app_id ← field "app_id" msg;
  dev_id ← field "dev_id" msg;
  mret ("ttn/" +:+ py_str app_id +:+ "/" +:+ py_str dev_id).

(** [a > b]: integers by value, strings lexicographically, a mixed pair
    raises [TypeError] *)
Definition py_gt (a b : jval) : res bool :=
  match a, b with
  | JInt x, JInt y => Ok (bool_decide (y < x))
  | JStr x, JStr y => Ok (String.ltb y x)
  | _, _ => Raised TypeError
  end.

(** The [generate_config] decision together with the unconditional update
    of [last_counter_seen] that follows it. *)
Definition check_counter (last_counter_seen : gmap string jval)
    (node_id : string) (msg_counter : jval) : res (bool * gmap string jval) :=
  generate_config ←
    match last_counter_seen !! node_id with
    | Some last_counter => py_gt last_counter msg_counter
    | None => Ok true
    end;
  mret (generate_config, <[node_id := msg_counter]> last_counter_seen).

(** ** Message emitter and the whole of [process_data] *)

(** What one call of [process_data], iterated to its end by [on_message],
    leaves behind: the messages yielded in order, the counter map, the
    (mutated) envelope object, and how the generator finished. *)
Record run : Type := Run {
  yielded : list string;
  counters : gmap string jval;
  msg_after : envelope;
  finished : res unit
}.

Section Emitter.
(** The external serialisers: [cbor2.dumps], [base64.b64encode] and
    [json.dumps] (followed by the UTF-8 encoding of its result). *)
Variable cbor_dumps : list item → list byte.
Variable b64encode : list byte → string.
Variable json_dumps : envelope → string.

(** Returns the message bytes and the envelope object as mutated. *)
Definition produce_message (msg_obj : envelope) (payload : list item) (port : Z)
  : string * envelope :=
  let msg_obj := Dict.set "port" (JInt port) msg_obj in
  let payload_cbor := cbor_dumps payload in
  let msg_obj := Dict.set "payload_raw" (JStr (b64encode payload_cbor)) msg_obj in
  (json_dumps msg_obj, msg_obj).

Definition process_data (last_counter_seen : gmap string jval)
    (msg_obj : envelope) (payload : list byte) : run :=
  let prepared :=
    port ← field "port" msg_obj;
    '(config, data) ← decode_packet port payload;
    node_id ← make_ttn_node_id msg_obj;
    msg_counter ← field "counter" msg_obj;
    '(generate_config, counters') ←
      check_counter last_counter_seen node_id msg_counter;
    mret (config, data, generate_config, counters') in
  match prepared with
  | Ok (config, data, generate_config, counters') =>
      let '(out, msg_obj) :=
        if generate_config : bool then
          let config := map encode config in
          let '(m, msg_obj) := produce_message msg_obj config CONFIG_PORT in
          ([m], msg_obj)
        else ([], msg_obj) in
      let '(m, msg_obj) := produce_message msg_obj data DATA_PORT in
      Run (out ++ [m]) counters' msg_obj (Ok ())
  | Dropped => Run [] last_counter_seen msg_obj Dropped
  | Raised e => Run [] last_counter_seen msg_obj (Raised e)
  end.
End Emitter.

(** ** Vocabulary for the statements below *)

(** The [channel_id] of a descriptor or reading, if it has one. *)
Definition channel_of (d : item) : option pyval := Dict.get (KStr "channel_id") d.

(** The entries contributed by an optional channel. *)
Definition when {A : Type} (present : bool) (l : list A) : list A :=
  if present then l else [].

(** Bit [i] of a byte, bit 7 being the first one in the stream. *)
Definition flag_bit (b : byte) (i : N) : bool := N.testbit (Byte.to_N b) i.

(** Bits consumed by the fixed-width fields of a layout. *)
Definition needed_bits (f : flags) : nat :=
  ((if have_firmware f then 8 else 0) + 24 + 24 + 12 + 12
   + (if have_supply f then 8 else 0) + (if have_lux f then 16 else 0)
   + (if have_pm f then 32 else 0) + (if have_battery f then 8 else 0))%nat.

(** The ambient-light descriptor of the flagged (port 13) layout. *)
Definition lux_config_scaled : item :=
  Dict.set (KStr "divider") (VInt 4) lux_config.

(** The 5-bit size field of an extra value, as the node writes it. *)
Definition size_field (size : Z) : list bool :=
  map (Z.testbit size) [4; 3; 2; 1; 0].

(** The envelope [produce_message] serialises: the inbound one with [port]
    and [payload_raw] assigned, in this order. *)
Definition outbound_envelope (cbor_dumps : list item → list byte)
    (b64encode : list byte → string)
    (msg_obj : envelope) (payload : list item) (port : Z) : envelope :=
  Dict.set "payload_raw" (JStr (b64encode (cbor_dumps payload)))
    (Dict.set "port" (JInt port) msg_obj).

(** ** Sample inputs *)

(** Port 10, nine bytes: position (1, -1), temperature 100, humidity 400. *)
Definition payload10 : list byte :=
  [ x00; x00; x01; xff; xff; xff; x06; x41; x90 ].

(** Port 12, thirteen bytes: firmware 7, supply 200, ambient light 258. *)
Definition payload12 : list byte :=
  [ x07; x00; x00; x01; xff; xff; xff; x06; x41; x90; xc8; x01; x02 ].

(** Port 13, flag byte [10100001]: ambient light, battery and extra values,
    no particulate matter; one extra value of four bits, then padding. *)
Definition payload13 : list byte :=
  [ xa1; x07; x00; x00; x01; xff; xff; xff; x06; x41; x90; xc8;
    x01; x02; x21; x1d; xff ].

(** Port 13, flag byte [00000001]: the extra flag alone, and a stream that
    ends right after the supply voltage. *)
Definition payload13_bare : list byte :=
  [ x01; x07; x00; x00; x01; xff; xff; xff; x06; x41; x90; xc8 ].

(** The same with one byte of all-ones padding. *)
Definition payload13_pad : list byte :=
  [ x01; x07; x00; x00; x01; xff; xff; xff; x06; x41; x90; xc8; xff ].



Definition sample_msg : envelope :=
  [ ("app_id", JStr "weather"); ("dev_id", JStr "node-1"); ("port", JInt 10);
    ("counter", JInt 7); ("payload_raw", JStr "AAAB////BkGQ");
    ("hardware_serial", JStr "0004A30B001C0530") ].

(** Stand-ins for the external serialisers, used to run the examples. *)
Definition sample_cbor (payload : list item) : list byte :=
  replicate (length payload) x00.

Definition sample_b64 (bs : list byte) : string := pretty (length bs).

Definition sample_json (msg_obj : envelope) : string :=
  String.concat "," (map (λ kv, fst kv +:+ "=" +:+ py_str (snd kv)) msg_obj).

(** ** Vocabulary for the further properties *)

(** The width of each reading on the wire: what a well-formed reading of a
    channel looks like. *)
Definition reading_in_range (d : item) : Prop :=
  match channel_of d, Dict.get (KStr "value") d with
  | Some (VInt 0), Some (VList [lat; lon]) =>
      (- 2 ^ 23 ≤ lat < 2 ^ 23) ∧ (- 2 ^ 23 ≤ lon < 2 ^ 23)
  | Some (VInt 1), Some (VInt v) | Some (VInt 2), Some (VInt v) =>
      - 2 ^ 11 ≤ v < 2 ^ 11
  | Some (VInt 3), Some (VInt v) | Some (VInt 4), Some (VInt v) =>
      0 ≤ v < 2 ^ 8
  | Some (VInt 5), Some (VInt v) | Some (VInt 6), Some (VInt v)
  | Some (VInt 7), Some (VInt v) =>
      0 ≤ v < 2 ^ 16
  | Some (VInt 8), Some (VList l) => Forall (λ v, 0 ≤ v < 2 ^ 32) l
  | _, _ => False
  end.

(** The payload byte that holds the firmware version, if the layout has
    one: none on port 10, the byte after the flag byte on port 13, the
    first byte otherwise. *)
Definition firmware_byte (port : jval) (payload : list byte) : option byte :=
  match port with
  | JInt 10 => None
  | JInt 13 => payload !! 1%nat
  | _ => payload !! 0%nat
  end.

(** The channels of the length-discriminated layouts, by port and payload
    length, in the order their readings are appended. *)
Definition legacy_channels (port : Z) (len : nat) : option (list Z) :=
  if decide (port = 10) then
    if decide (len = 9%nat) then Some [0; 1; 2]
    else if decide (len = 10%nat) then Some [0; 1; 2; 3]
    else if decide (len = 11%nat) then Some [0; 1; 2; 3; 4]
    else None
  else if decide (port = 11) then
    if decide (len = 11%nat) then Some [0; 1; 2; 3]
    else if decide (len = 12%nat) then Some [0; 1; 2; 3; 4]
    else if decide (len = 15%nat) then Some [0; 1; 2; 3; 6; 7]
    else if decide (len = 16%nat) then Some [0; 1; 2; 3; 6; 7; 4]
    else None
  else if decide (port = 12) then
    if decide (len = 13%nat) then Some [0; 1; 2; 3; 5]
    else if decide (len = 14%nat) then Some [0; 1; 2; 3; 5; 4]
    else if decide (len = 17%nat) then Some [0; 1; 2; 3; 5; 6; 7]
    else if decide (len = 18%nat) then Some [0; 1; 2; 3; 5; 6; 7; 4]
    else None
  else None.

(** The decisions taken for one node over a sequence of integer frame
    counters, one [check_counter] call per packet, the map being threaded
    from call to call as [process_data] does through [last_counter_seen]. *)
Fixpoint counter_decisions (last_counter_seen : gmap string jval)
    (node_id : string) (counters : list Z) : list bool :=
  match counters with
  | [] => []
  | c :: counters' =>
      match check_counter last_counter_seen node_id (JInt c) with
      | Ok (generate_config, last_counter_seen') =>
          generate_config :: counter_decisions last_counter_seen' node_id counters'
      | _ => []
      end
  end.

(** Where a sequence of counters falls below its predecessor. *)
Fixpoint descents (prev : Z) (counters : list Z) : list bool :=
  match counters with
  | [] => []
  | c :: counters' => bool_decide (c < prev) :: descents c counters'
  end.

(** The two rewrites [encode_cbor_obj] applies to an entry: the key gets its
    catalog code if it has one, a string value gets its code if the key has
    a value table that lists it. *)
Definition encode_key (keys : list (string * Z)) (key : pykey) : pykey :=
  match key with
  | KStr k => match Dict.get k keys with Some code => KInt code | None => key end
  | KInt _ => key
  end.

Definition encode_value (values : list (string * list (string * Z)))
    (key : pykey) (value : pyval) : pyval :=
  match value, key with
  | VStr s, KStr k =>
      match Dict.get k values with
      | Some ((_ :: _) as values_for_this_key) =>
          match Dict.get s values_for_this_key with
          | Some code => VInt code
          | None => value
          end
      | _ => value
      end
  | _, _ => value
  end.

(** Whether a string contains the separator of node identities. *)
Fixpoint has_slash (s : string) : bool :=
  match s with
  | EmptyString => false
  | String c s' => bool_decide (c = "/"%char) || has_slash s'
  end.

(** * Properties *)

(** ** Dicts *)

Section DictFacts.
Context {K V : Type} `{EqDecision K}.
Implicit Types (d : list (K * V)) (k : K) (v : V).

Lemma dict_get_set_eq k v d : Dict.get k (Dict.set k v d) = Some v.
Proof.
  induction d as [|[k' v'] d IH]; simpl.
  - by rewrite decide_True.
  - destruct (decide (k = k')) as [->|Hne]; simpl.
    + by rewrite decide_True.
    + by rewrite decide_False.
Qed.

Lemma dict_get_set_ne k k' v d :
  k ≠ k' → Dict.get k' (Dict.set k v d) = Dict.get k' d.
Proof.
  intros Hne. induction d as [|[k0 v0] d IH]; simpl.
  - by rewrite decide_False.
  - destruct (decide (k = k0)) as [->|Hne0]; simpl.
    + by rewrite !decide_False.
    + by rewrite IH.
Qed.

Lemma dict_set_set k v1 v2 d :
  Dict.set k v2 (Dict.set k v1 d) = Dict.set k v2 d.
Proof.
  induction d as [|[k0 v0] d IH]; simpl.
  - by rewrite decide_True.
  - destruct (decide (k = k0)) as [->|Hne]; simpl.
    + by rewrite decide_True.
    + by rewrite decide_False, IH.
Qed.

(** Overwriting [k], then setting another key, then overwriting [k]
    again: only the last value of [k] is visible, at the place where the
    first assignment put it. *)
Lemma dict_set_overwrite k k' a b c d :
  k ≠ k' →
  Dict.set k a (Dict.set k' b (Dict.set k c d))
  = Dict.set k' b (Dict.set k a d).
Proof.
  intros Hne. induction d as [|[k0 v0] d IH]; simpl.
  - rewrite !decide_False by done. simpl. by rewrite !decide_True.
  - destruct (decide (k = k0)) as [->|Hne0]; simpl.
    + rewrite !decide_False by done. simpl. by rewrite !decide_True.
    + destruct (decide (k' = k0)) as [->|Hne1]; simpl.
      * rewrite !decide_False by done. by rewrite dict_set_set.
      * rewrite !decide_False by done. by rewrite IH.
Qed.

Lemma dict_keys_set_present k v d :
  is_Some (Dict.get k d) → Dict.keys (Dict.set k v d) = Dict.keys d.
Proof.
  unfold Dict.keys. induction d as [|[k0 v0] d IH]; simpl.
  - by intros [? ?].
  - destruct (decide (k = k0)) as [->|Hne]; simpl; [done|].
    intros Hs. by rewrite IH.
Qed.

Lemma dict_keys_set_absent k v d :
  Dict.get k d = None → Dict.keys (Dict.set k v d) = Dict.keys d ++ [k].
Proof.
  unfold Dict.keys. induction d as [|[k0 v0] d IH]; simpl; [done|].
  destruct (decide (k = k0)) as [->|Hne]; simpl; [done|].
  intros Hs. by rewrite IH.
Qed.
End DictFacts.

(** ** Bit stream *)

Lemma reader_bind_Ok {A B} (m : reader A) (k : A → reader B) s r :
  (m ≫= k) s = Ok r → ∃ a s', m s = Ok (a, s') ∧ k a s' = Ok r.
Proof.
  unfold mbind, reader_bind. destruct (m s) as [[a s']| |e]; [eauto|done..].
Qed.

Lemma reader_ret_Ok {A} (a : A) s r :
  (mret a : reader A) s = Ok r → r = (a, s).
Proof. unfold mret, reader_ret. congruence. Qed.

Lemma read_bits_ok n s :
  (n ≤ length s)%nat → read_bits n s = Ok (take n s, drop n s).
Proof. intros Hn. unfold read_bits. by rewrite decide_True. Qed.

Lemma read_bits_short n s :
  (length s < n)%nat → read_bits n s = Raised ReadError.
Proof. intros Hn. unfold read_bits. rewrite decide_False; [done|lia]. Qed.


Lemma read_uint_ok n s :
  (n ≤ length s)%nat → read_uint n s = Ok (uint_of_bits (take n s), drop n s).
Proof.
  intros Hn. unfold read_uint, fmap, reader_fmap. by rewrite read_bits_ok.
Qed.

Lemma read_int_ok n s :
  (n ≤ length s)%nat → read_int n s = Ok (int_of_bits (take n s), drop n s).
Proof.
  intros Hn. unfold read_int, fmap, reader_fmap. by rewrite read_bits_ok.
Qed.


Lemma read_uint_inv n s v s' :
  read_uint n s = Ok (v, s') → (n ≤ length s)%nat ∧ s' = drop n s.
Proof.
  unfold read_uint, fmap, reader_fmap, read_bits.
  case_decide; [|done]. intros [= _ <-]. done.
Qed.

Lemma read_int_inv n s v s' :
  read_int n s = Ok (v, s') → (n ≤ length s)%nat ∧ s' = drop n s.
Proof.
  unfold read_int, fmap, reader_fmap, read_bits.
  case_decide; [|done]. intros [= _ <-]. done.
Qed.

Lemma length_bits_of_byte b : length (bits_of_byte b) = 8%nat.
Proof. done. Qed.

Lemma length_bits_of_bytes payload :
  length (bits_of_bytes payload) = (8 * length payload)%nat.
Proof.
  unfold bits_of_bytes. induction payload as [|b payload IH]; simpl; [done|].
  rewrite IH. lia.
Qed.

(** ** The extra-value loop *)






Lemma read_extras_loop_total fuel acc s :
  ∃ vs s', read_extras_loop fuel acc s = Ok (vs, s').
Proof.
  revert acc s. induction fuel as [|fuel IH]; intros acc s; simpl; [by eauto|].
  unfold mbind, reader_bind, stream_remaining.
  case_decide; [|by eauto]. case_decide; [by eauto|].
  rewrite read_uint_ok by lia.
  case_decide; [by eauto|].
  rewrite read_uint_ok by lia. apply IH.
Qed.

Lemma read_extras_unfold s :
  read_extras s = read_extras_loop (length s) [] s.
Proof. done. Qed.




Lemma read_extras_total s : ∃ vs s', read_extras s = Ok (vs, s').
Proof. rewrite read_extras_unfold. apply read_extras_loop_total. Qed.

(** ** Field extraction *)

Ltac reader_inv :=
  repeat match goal with
  | H : (_ ≫= _) _ = Ok _ |- _ => apply reader_bind_Ok in H as (? & ? & ? & H)
  | H : (let '(_, _) := ?a in _) _ = Ok _ |- _ => destruct a
  | H : mret _ _ = Ok _ |- _ => apply reader_ret_Ok in H; simplify_eq
  end.

(** What the lists look like whenever field extraction succeeds. *)
Lemma decode_fields_shape f lc s config data s' :
  decode_fields f lc s = Ok (config, data, s') →
  (∃ fw, config =
     [ if have_firmware f
       then Dict.set (KStr "firmware_version") (VInt fw) node_config
       else node_config;
       position_config; temperature_config; humidity_config ]
     ++ when (have_supply f) [vcc_config] ++ when (have_lux f) [lc]
     ++ when (have_pm f) [pm25_config; pm10_config]
     ++ when (have_battery f) [battery_config]
     ++ when (have_extra f) [extra_config])
  ∧ channel_of <$> data =
     [Some (VInt 0); Some (VInt 1); Some (VInt 2)]
     ++ when (have_supply f) [Some (VInt 3)] ++ when (have_lux f) [Some (VInt 5)]
     ++ when (have_pm f) [Some (VInt 6); Some (VInt 7)]
     ++ when (have_battery f) [Some (VInt 4)]
     ++ when (have_extra f) [Some (VInt 8)]
  ∧ (have_extra f = true →
     ∃ extra_value rest,
       read_extras (drop (needed_bits f) s) = Ok (extra_value, rest)
       ∧ last data = Some (reading 8 (VList extra_value))).
Proof.
  unfold decode_fields, needed_bits. intros H.
  destruct f as [[] [] [] [] [] []]; cbn [have_supply have_battery
    have_firmware have_lux have_pm have_extra] in *;
    reader_inv;
    (split; [first [by eexists | by exists 0]|]); (split; [done|]);
    first [done | intros _];
    repeat match goal with
    | H : read_uint _ _ = Ok _ |- _ => apply read_uint_inv in H as [_ ->]
    | H : read_int _ _ = Ok _ |- _ => apply read_int_inv in H as [_ ->]
    end;
    rewrite ?drop_drop in *; eauto.
Qed.

Ltac reader_unfold :=
  unfold mbind, reader_bind, mret, reader_ret; cbv beta iota zeta.

Ltac reader_run :=
  repeat first
    [ rewrite read_uint_ok by (rewrite ?length_drop; lia)
    | rewrite read_int_ok by (rewrite ?length_drop; lia)
    | match goal with
      | |- context [read_extras ?x] =>
          destruct (read_extras_total x) as (? & ? & ->)
      end
    | progress cbv beta iota zeta ].

(** Field extraction succeeds as soon as the stream holds the fixed-width
    fields of the layout; the extra values never fail. *)
Lemma decode_fields_ok f lc s :
  (needed_bits f ≤ length s)%nat →
  ∃ config data s', decode_fields f lc s = Ok (config, data, s').
Proof.
  unfold decode_fields, needed_bits. intros H.
  destruct f as [[] [] [] [] [] []]; cbn [have_supply have_battery
    have_firmware have_lux have_pm have_extra] in *;
    reader_unfold; reader_run; by eauto.
Qed.

Lemma read_uint_short n s :
  (length s < n)%nat → read_uint n s = Raised ReadError.
Proof.
  intros Hn. unfold read_uint, fmap, reader_fmap. by rewrite read_bits_short.
Qed.

Lemma read_int_short n s :
  (length s < n)%nat → read_int n s = Raised ReadError.
Proof.
  intros Hn. unfold read_int, fmap, reader_fmap. by rewrite read_bits_short.
Qed.

Ltac reader_run_or_fail :=
  repeat first
    [ match goal with
      | |- context [read_uint ?n ?x] =>
          destruct (decide (n ≤ length x)%nat);
          [ rewrite (read_uint_ok n x) by done
          | rewrite (read_uint_short n x) by lia; done ]
      | |- context [read_int ?n ?x] =>
          destruct (decide (n ≤ length x)%nat);
          [ rewrite (read_int_ok n x) by done
          | rewrite (read_int_short n x) by lia; done ]
      end
    | progress cbv beta iota zeta ].

(** ... and raises [ReadError] when it does not. *)
Lemma decode_fields_short f lc s :
  (length s < needed_bits f)%nat →
  decode_fields f lc s = Raised ReadError.
Proof.
  unfold decode_fields, needed_bits. intros H.
  destruct f as [[] [] [] [] [] []]; cbn [have_supply have_battery
    have_firmware have_lux have_pm have_extra] in *;
    reader_unfold; reader_run_or_fail;
    exfalso; rewrite ?length_drop in *; lia.
Qed.

(** ** Variant selection *)

(** Port 13: the first byte is the flag byte. *)
Lemma decode_packet_13 b0 rest :
  decode_packet (JInt 13) (b0 :: rest)
  = fst <$> decode_fields
      (Flags true (flag_bit b0 5) true (flag_bit b0 7) (flag_bit b0 6) (flag_bit b0 0))
      lux_config_scaled (bits_of_bytes rest).
Proof. reflexivity. Qed.

Lemma decode_packet_13_empty : decode_packet (JInt 13) [] = Raised ReadError.
Proof. reflexivity. Qed.

(** Port 12: the payload length decides on battery and particulate matter. *)
Lemma decode_packet_12 payload :
  length payload = 13%nat ∨ length payload = 14%nat
  ∨ length payload = 17%nat ∨ length payload = 18%nat →
  decode_packet (JInt 12) payload
  = fst <$> decode_fields
      (Flags true (bool_decide (length payload = 14%nat ∨ length payload = 18%nat))
             true true
             (bool_decide (length payload = 17%nat ∨ length payload = 18%nat)) false)
      lux_config (bits_of_bytes payload).
Proof.
  unfold decode_packet, decode_stream. intros [H|[H|[H|H]]]; rewrite H; reflexivity.
Qed.

Lemma fmap_fst_Ok {A B} (r : res (A * B)) a :
  fst <$> r = Ok a → ∃ b, r = Ok (a, b).
Proof. destruct r as [[a' b]| |e]; simpl; [|done..]. intros [= ->]. eauto. Qed.

Lemma decode_packet_fields port payload config data :
  decode_packet port payload = Ok (config, data) →
  ∃ f lc s s', decode_fields f lc s = Ok (config, data, s').
Proof.
  unfold decode_packet, decode_stream. intros [s' H]%fmap_fst_Ok.
  apply reader_bind_Ok in H as ([f lc] & s & _ & H). eauto.
Qed.

Lemma select_variant_unknown_port port len s :
  port ≠ JInt 10 → port ≠ JInt 11 → port ≠ JInt 12 → port ≠ JInt 13 →
  select_variant port len s = Dropped.
Proof.
  intros H10 H11 H12 H13. unfold select_variant, port_is.
  destruct port as [z|str]; [|done].
  rewrite !bool_decide_eq_false_2 by congruence. done.
Qed.

Lemma select_variant_bad_length port len s :
  (port = JInt 10 ∧ len ∉ [9; 10; 11]%nat)
  ∨ (port = JInt 11 ∧ len ∉ [11; 12; 15; 16]%nat)
  ∨ (port = JInt 12 ∧ len ∉ [13; 14; 17; 18]%nat) →
  select_variant port len s = Dropped.
Proof.
  rewrite !not_elem_of_cons.
  intros [[-> H]|[[-> H]|[-> H]]]; unfold select_variant; simpl;
    rewrite !decide_False by tauto; done.
Qed.

Lemma decode_packet_dropped port payload :
  (port ≠ JInt 10 ∧ port ≠ JInt 11 ∧ port ≠ JInt 12 ∧ port ≠ JInt 13)
  ∨ (port = JInt 10 ∧ length payload ∉ [9; 10; 11]%nat)
  ∨ (port = JInt 11 ∧ length payload ∉ [11; 12; 15; 16]%nat)
  ∨ (port = JInt 12 ∧ length payload ∉ [13; 14; 17; 18]%nat) →
  decode_packet port payload = Dropped.
Proof.
  unfold decode_packet, decode_stream, mbind, reader_bind.
  intros [(? & ? & ? & ?)|H].
  - by rewrite select_variant_unknown_port.
  - by rewrite select_variant_bad_length.
Qed.

(** ** Packet decoder: the flagged layout *)

(** C4. On port 13 the first, second, third and eighth bit of the stream
    (ambient light, particulate matter, battery, extra values; the four
    bits in between are skipped) decide which optional descriptors and
    readings follow the always-present ones, and the ambient-light
    descriptor of this layout carries divider 4. *)
Theorem port13_flags_gate_fields (b0 : byte) (rest : list byte) config data :
  decode_packet (JInt 13) (b0 :: rest) = Ok (config, data) →
  (∃ fw, config =
     [ Dict.set (KStr "firmware_version") (VInt fw) node_config;
       position_config; temperature_config; humidity_config; vcc_config ]
     ++ when (flag_bit b0 7) [lux_config_scaled]
     ++ when (flag_bit b0 6) [pm25_config; pm10_config]
     ++ when (flag_bit b0 5) [battery_config]
     ++ when (flag_bit b0 0) [extra_config])
  ∧ channel_of <$> data =
     [Some (VInt 0); Some (VInt 1); Some (VInt 2); Some (VInt 3)]
     ++ when (flag_bit b0 7) [Some (VInt 5)]
     ++ when (flag_bit b0 6) [Some (VInt 6); Some (VInt 7)]
     ++ when (flag_bit b0 5) [Some (VInt 4)]
     ++ when (flag_bit b0 0) [Some (VInt 8)]
  ∧ channel_of lux_config_scaled = Some (VInt 5)
  ∧ Dict.get (KStr "divider") lux_config_scaled = Some (VInt 4).
Proof.
  rewrite decode_packet_13. intros [s' H]%fmap_fst_Ok.
  apply decode_fields_shape in H as (Hc & Hd & _).
  cbn [have_supply have_battery have_firmware have_lux have_pm have_extra] in *.
  done.
Qed.

Lemma port13_flags_gate_fields_witness :
  ∃ config data,
    decode_packet (JInt 13) payload13 = Ok (config, data)
    ∧ channel_of <$> data =
        [ Some (VInt 0); Some (VInt 1); Some (VInt 2); Some (VInt 3);
          Some (VInt 5); Some (VInt 4); Some (VInt 8) ]
    ∧ config !! 5%nat = Some lux_config_scaled.
Proof.
  eexists _, _. split; [reflexivity|].
  destruct (port13_flags_gate_fields xa1 (tail payload13) _ _ eq_refl)
    as ([fw Hc] & Hd & _ & _).
  split; [exact Hd|reflexivity].
Defined.

(** The flagged layout decodes exactly when the bytes after the flag byte
    hold all fixed-width fields announced by the flags. *)
Lemma port13_decodes (b0 : byte) (rest : list byte) :
  let f := Flags true (flag_bit b0 5) true (flag_bit b0 7) (flag_bit b0 6)
                 (flag_bit b0 0) in
  (needed_bits f ≤ 8 * length rest)%nat
    ∧ (∃ config data, decode_packet (JInt 13) (b0 :: rest) = Ok (config, data))
  ∨ (8 * length rest < needed_bits f)%nat
    ∧ decode_packet (JInt 13) (b0 :: rest) = Raised ReadError.
Proof.
  intros f. rewrite decode_packet_13. fold f.
  destruct (decide (needed_bits f ≤ 8 * length rest)%nat) as [Hle|Hgt].
  - left. split; [done|].
    destruct (decode_fields_ok f lux_config_scaled (bits_of_bytes rest))
      as (config & data & s' & ->); [by rewrite length_bits_of_bytes|].
    by eauto.
  - right. split; [lia|].
    rewrite decode_fields_short; [done|]. rewrite length_bits_of_bytes. lia.
Qed.

(** C10. With the extra flag set, the channel-8 descriptor ends the config
    list and a channel-8 reading ends the data list; its value is whatever
    the loop collected from the bits after the fixed-width fields, the
    empty list included. *)
Theorem port13_extra_always_appended (b0 : byte) (rest : list byte) config data :
  decode_packet (JInt 13) (b0 :: rest) = Ok (config, data) →
  flag_bit b0 0 = true →
  last config = Some extra_config
  ∧ channel_of extra_config = Some (VInt 8)
  ∧ ∃ extra_value s',
      read_extras
        (drop (needed_bits (Flags true (flag_bit b0 5) true (flag_bit b0 7)
                                  (flag_bit b0 6) true))
              (bits_of_bytes rest)) = Ok (extra_value, s')
      ∧ last data = Some (reading 8 (VList extra_value)).
Proof.
  rewrite decode_packet_13. intros [s' H]%fmap_fst_Ok Hextra.
  rewrite Hextra in H.
  apply decode_fields_shape in H as ([fw ->] & _ & Hlast).
  cbn [have_supply have_battery have_firmware have_lux have_pm have_extra] in *.
  split; [|split; [done|by apply Hlast]].
  change (when true [extra_config]) with [extra_config].
  rewrite !app_assoc. by rewrite last_snoc.
Qed.

Lemma port13_extra_always_appended_witness :
  ∃ config data,
    decode_packet (JInt 13) payload13_bare = Ok (config, data)
    ∧ flag_bit x01 0 = true
    ∧ last config = Some extra_config
    ∧ last data = Some (reading 8 (VList [])).
Proof.
  eexists _, _. split; [reflexivity|]. split; [reflexivity|].
  destruct (port13_extra_always_appended x01 (tail payload13_bare) _ _
              eq_refl eq_refl) as (Hc & _ & _).
  split; [exact Hc|reflexivity].
Defined.

(** Trailing all-ones padding yields no extra value either. *)
Example port13_extra_pad :
  snd <$> decode_packet (JInt 13) payload13_pad
  = Ok [ reading 0 (VList [1; -1]); reading 1 (VInt 100); reading 2 (VInt 400);
         reading 3 (VInt 200); reading 8 (VList []) ].
Proof. reflexivity. Qed.

(** ** Packet decoder: port 12 *)

(** C5, as stated, fails: the ambient-light descriptor of a valid port-12
    packet has no [divider] entry, so it does not carry divider 1. *)
Lemma port12_lux_divider_not_1 :
  ¬ (∀ payload config data d,
       length payload = 13%nat ∨ length payload = 14%nat
       ∨ length payload = 17%nat ∨ length payload = 18%nat →
       decode_packet (JInt 12) payload = Ok (config, data) →
       d ∈ config → channel_of d = Some (VInt 5) →
       Dict.get (KStr "divider") d = Some (VInt 1)).
Proof.
  intros H.
  specialize (H payload12 _ _ lux_config (or_introl eq_refl) eq_refl).
  assert (Dict.get (KStr "divider") lux_config = Some (VInt 1)) as Hd.
  { apply H; [|reflexivity]. repeat constructor. }
  discriminate Hd.
Qed.

(** C5, amended. Every port-12 payload of length 13, 14, 17 or 18 decodes,
    and its only channel-5 descriptor is [lux_config], which has the four
    entries item_type, channel_id, quantity and unit and no divider, before
    and after compaction. *)
Theorem port12_lux_has_no_divider payload :
  length payload = 13%nat ∨ length payload = 14%nat
  ∨ length payload = 17%nat ∨ length payload = 18%nat →
  ∃ config data,
    decode_packet (JInt 12) payload = Ok (config, data)
    ∧ config !! 5%nat = Some lux_config
    ∧ (∀ d, d ∈ config → channel_of d = Some (VInt 5) → d = lux_config)
    ∧ Dict.get (KStr "divider") lux_config = None
    ∧ encode lux_config
      = [ (KInt 5, VInt 2); (KInt 1, VInt 5); (KInt 2, VInt 4); (KInt 3, VInt 5) ].
Proof.
  intros Hlen. rewrite decode_packet_12 by done.
  set (f := Flags _ _ _ _ _ _).
  destruct (decode_fields_ok f lux_config (bits_of_bytes payload))
    as (config & data & s' & H).
  { rewrite length_bits_of_bytes. unfold f, needed_bits; simpl.
    destruct Hlen as [H|[H|[H|H]]]; rewrite H; simpl; lia. }
  exists config, data. rewrite H. split; [done|].
  apply decode_fields_shape in H as ([fw ->] & _ & _).
  unfold f; simpl. split; [done|]. split; [|done].
  intros d Hd Hch.
  repeat case_bool_decide; simpl in Hd;
    repeat (apply elem_of_cons in Hd as [->|Hd];
            [by first [discriminate Hch | done]|]);
    by apply elem_of_nil in Hd.
Qed.

Lemma port12_lux_has_no_divider_witness :
  (length payload12 = 13%nat ∨ length payload12 = 14%nat
   ∨ length payload12 = 17%nat ∨ length payload12 = 18%nat)
  ∧ ∃ config data,
      decode_packet (JInt 12) payload12 = Ok (config, data)
      ∧ config !! 5%nat = Some lux_config
      ∧ (∀ d, d ∈ config → channel_of d = Some (VInt 5) → d = lux_config)
      ∧ Dict.get (KStr "divider") lux_config = None
      ∧ encode lux_config
        = [ (KInt 5, VInt 2); (KInt 1, VInt 5); (KInt 2, VInt 4); (KInt 3, VInt 5) ].
Proof.
  split; [left; reflexivity|].
  apply (port12_lux_has_no_divider payload12). left; reflexivity.
Defined.

(** ** Extra values *)

(** The loop never raises, whatever bits remain. *)
Lemma read_extras_never_raises s : ∃ vs s', read_extras s = Ok (vs, s').
Proof. apply read_extras_total. Qed.

(** In a whole payload seven pad bits follow these two values; all ones,
    they read as size 31 and end the loop, all zeros, they read as a third
    value. *)
Example read_extras_seven_pad_bits :
  fst <$> read_extras (size_field 3 ++ [true; false; true; true] ++ size_field 10
                       ++ replicate 11 true ++ replicate 7 true)
  = Ok [11; 2047]
  ∧ fst <$> read_extras (size_field 3 ++ [true; false; true; true] ++ size_field 10
                         ++ replicate 11 true ++ replicate 7 false)
    = Ok [11; 2047; 0].
Proof. split; reflexivity. Qed.

(** ** Config compactor *)

(** C9. The catalog has no code for "degrees_celsius" (it lists
    "degrees_celcius"), so in every compacted config list the temperature
    descriptor keeps that string as its unit, under key code 3. *)
Theorem temperature_unit_not_compacted port payload config data :
  decode_packet port payload = Ok (config, data) →
  (encode <$> config) !! 2%nat
  = Some [ (KInt 5, VInt 2); (KInt 1, VInt 1); (KInt 2, VInt 1);
           (KInt 3, VStr "degrees_celsius"); (KInt 7, VInt 16) ]
  ∧ Dict.get (KStr "unit") temperature_config = Some (VStr "degrees_celsius")
  ∧ Dict.get "unit" CONFIG_PACKET_VALUES_INVERTED ≫= Dict.get "degrees_celsius"
    = None
  ∧ Dict.get "unit" CONFIG_PACKET_VALUES_INVERTED ≫= Dict.get "degrees_celcius"
    = Some 1.
Proof.
  intros (f & lc & s & s' & H)%decode_packet_fields.
  apply decode_fields_shape in H as ([fw ->] & _ & _). done.
Qed.

Lemma temperature_unit_not_compacted_witness :
  ∃ config data,
    decode_packet (JInt 10) payload10 = Ok (config, data)
    ∧ Dict.get (KInt 3) <$> (encode <$> config) !! 2%nat
      = Some (Some (VStr "degrees_celsius")).
Proof.
  eexists _, _. split; [reflexivity|].
  destruct (temperature_unit_not_compacted (JInt 10) payload10 _ _ eq_refl)
    as (-> & _). reflexivity.
Defined.

(** ** Config state tracker *)

Lemma check_counter_int (st : gmap string jval) (node : string) (counter : Z) :
  (∀ v, st !! node = Some v → ∃ last, v = JInt last) →
  check_counter st node (JInt counter)
  = Ok (match st !! node with
        | Some (JInt last) => bool_decide (counter < last)
        | _ => true
        end, <[node := JInt counter]> st).
Proof.
  intros Hint. unfold check_counter.
  destruct (st !! node) as [v|]; [|done].
  by destruct (Hint v eq_refl) as [last ->].
Qed.

Lemma check_counter_first (st : gmap string jval) (node : string) counter :
  st !! node = None →
  check_counter st node counter = Ok (true, <[node := counter]> st).
Proof. intros Hst. unfold check_counter. by rewrite Hst. Qed.

(** C2. With integer frame counters, the decision is true exactly when the
    node has no recorded counter or the new counter is strictly below the
    recorded one; an equal or greater counter gives false; either way the
    new counter is what the map holds for the node afterwards, and no other
    node is touched. *)
Theorem check_counter_policy (st : gmap string jval) (node : string) (counter : Z) :
  (∀ v, st !! node = Some v → ∃ last, v = JInt last) →
  ∃ generate_config,
    check_counter st node (JInt counter)
    = Ok (generate_config, <[node := JInt counter]> st)
    ∧ (generate_config = true ↔
         st !! node = None
         ∨ ∃ last, st !! node = Some (JInt last) ∧ counter < last)
    ∧ (∀ last, st !! node = Some (JInt last) → last ≤ counter →
         generate_config = false)
    ∧ (<[node := JInt counter]> st) !! node = Some (JInt counter)
    ∧ ∀ other, other ≠ node →
        (<[node := JInt counter]> st) !! other = st !! other.
Proof.
  intros Hint. rewrite check_counter_int by done.
  eexists. split; [reflexivity|].
  split; [|split; [|split]].
  - destruct (st !! node) as [v|] eqn:Hst; [|by split; [left|]].
    destruct (Hint v eq_refl) as [last ->].
    rewrite bool_decide_eq_true. split; [by eauto|].
    intros [?|(last' & [= <-] & ?)]; done.
  - intros last ->  Hle. apply bool_decide_eq_false. lia.
  - apply lookup_insert_eq.
  - intros other Hne. by apply lookup_insert_ne.
Qed.

Lemma check_counter_policy_witness :
  check_counter {[ "ttn/weather/node-1" := JInt 50 ]} "ttn/weather/node-1" (JInt 3)
  = Ok (true, {[ "ttn/weather/node-1" := JInt 3 ]})
  ∧ check_counter {[ "ttn/weather/node-1" := JInt 50 ]} "ttn/weather/node-1" (JInt 50)
    = Ok (false, {[ "ttn/weather/node-1" := JInt 50 ]}).
Proof.
  split.
  - destruct (check_counter_policy {[ "ttn/weather/node-1" := JInt 50 ]}
                "ttn/weather/node-1" 3) as (gen & -> & Hgen & _).
    + intros v. rewrite lookup_singleton_eq. intros [= <-]. by eexists.
    + rewrite insert_singleton_eq. f_equal. f_equal.
      apply Hgen. right. exists 50. by rewrite lookup_singleton_eq.
  - rewrite check_counter_int.
    + by rewrite lookup_singleton_eq, insert_singleton_eq.
    + intros v. rewrite lookup_singleton_eq. intros [= <-]. by eexists.
Defined.

(** A counter sequence 50, 3, 4 for one fresh node: config on the first
    sighting and at the decrease, not after it. *)
Example check_counter_sequence :
  ∃ st1 st2 st3,
    check_counter ∅ "n" (JInt 50) = Ok (true, st1)
    ∧ check_counter st1 "n" (JInt 3) = Ok (true, st2)
    ∧ check_counter st2 "n" (JInt 4) = Ok (false, st3)
    ∧ st3 !! "n" = Some (JInt 4).
Proof.
  eexists _, _, _. unfold check_counter.
  rewrite lookup_empty. simpl. split; [reflexivity|].
  rewrite lookup_insert_eq. simpl. split; [reflexivity|].
  rewrite lookup_insert_eq. simpl. split; [reflexivity|].
  apply lookup_insert_eq.
Qed.

(** ** Message emitter and whole-packet processing *)

Section EmitterFacts.
Variable cbor_dumps : list item → list byte.
Variable b64encode : list byte → string.
Variable json_dumps : envelope → string.

Local Abbreviation produce := (produce_message cbor_dumps b64encode json_dumps).
Local Abbreviation process := (process_data cbor_dumps b64encode json_dumps).
Local Abbreviation outbound := (outbound_envelope cbor_dumps b64encode).

(** A second message built from the envelope object that the first one
    left behind equals the message built from the inbound envelope. *)
Lemma outbound_twice msg payload1 port1 payload2 port2 :
  outbound (outbound msg payload1 port1) payload2 port2
  = outbound msg payload2 port2.
Proof.
  unfold outbound_envelope.
  rewrite (dict_set_overwrite "port" "payload_raw") by done.
  by rewrite dict_set_set.
Qed.

(** A run that gets past decoding and the counter check. *)
Lemma process_data_run st msg payload port config data node counter gen st' :
  field "port" msg = Ok port →
  decode_packet port payload = Ok (config, data) →
  make_ttn_node_id msg = Ok node →
  field "counter" msg = Ok counter →
  check_counter st node counter = Ok (gen, st') →
  process st msg payload
  = Run (when gen [json_dumps (outbound msg (map encode config) CONFIG_PORT)]
         ++ [json_dumps (outbound msg data DATA_PORT)])
        st' (outbound msg data DATA_PORT) (Ok ()).
Proof.
  intros Hport Hdec Hnode Hcounter Hcheck. unfold process_data.
  rewrite Hport. simpl. rewrite Hdec. simpl. rewrite Hnode. simpl.
  rewrite Hcounter. simpl. rewrite Hcheck. simpl.
  destruct gen; simpl; [|done].
  unfold outbound_envelope.
  rewrite (dict_set_overwrite "port" "payload_raw") by done.
  by rewrite dict_set_set.
Qed.

Lemma field_Some key (msg : envelope) v :
  Dict.get key msg = Some v → field key msg = Ok v.
Proof. intros H. unfold field. by rewrite H. Qed.

(** C8. The serialised envelope is the inbound one with [port] set to the
    target port and [payload_raw] set to the base64 text of the CBOR bytes
    of the payload; every other key keeps its value, and the keys keep
    their order ([port] and [payload_raw] go last if they were absent). *)
Theorem produce_message_frame msg payload port key :
  key ≠ "port" → key ≠ "payload_raw" →
  ∃ out,
    produce msg payload port = (json_dumps out, out)
    ∧ Dict.get "port" out = Some (JInt port)
    ∧ Dict.get "payload_raw" out = Some (JStr (b64encode (cbor_dumps payload)))
    ∧ Dict.get key out = Dict.get key msg
    ∧ Dict.keys out
      = Dict.keys msg
        ++ match Dict.get "port" msg with Some _ => [] | None => ["port"] end
        ++ match Dict.get "payload_raw" msg with
           | Some _ => []
           | None => ["payload_raw"]
           end.
Proof.
  intros Hport Hraw. exists (outbound msg payload port).
  split; [done|]. unfold outbound_envelope.
  split; [|split; [|split]].
  - rewrite dict_get_set_ne by done. apply dict_get_set_eq.
  - apply dict_get_set_eq.
  - rewrite !dict_get_set_ne by done. done.
  - assert (Dict.get "payload_raw" (Dict.set "port" (JInt port) msg)
            = Dict.get "payload_raw" msg) as Hget
      by (by rewrite dict_get_set_ne).
    destruct (Dict.get "payload_raw" msg) as [raw|] eqn:Hr.
    + rewrite dict_keys_set_present by (by rewrite Hget).
      destruct (Dict.get "port" msg) as [p|] eqn:Hp.
      * rewrite dict_keys_set_present by (by rewrite Hp). by rewrite !app_nil_r.
      * rewrite dict_keys_set_absent by done. by rewrite app_nil_r.
    + rewrite dict_keys_set_absent by done.
      destruct (Dict.get "port" msg) as [p|] eqn:Hp.
      * rewrite dict_keys_set_present by (by rewrite Hp). done.
      * rewrite dict_keys_set_absent by done. by rewrite <- app_assoc.
Qed.

(** C1. When the packet decodes and the envelope names its node and an
    integer counter (the counter recorded for the node, if any, being an
    integer too), the run finishes normally and yields the data message
    last, preceded by the config message if and only if the counter check
    says so: one data message, at most one config message before it. *)
Theorem process_data_config_then_data st msg payload port config data
    app_id dev_id counter :
  Dict.get "port" msg = Some port →
  decode_packet port payload = Ok (config, data) →
  Dict.get "app_id" msg = Some app_id →
  Dict.get "dev_id" msg = Some dev_id →
  Dict.get "counter" msg = Some (JInt counter) →
  (∀ v, st !! ("ttn/" +:+ py_str app_id +:+ "/" +:+ py_str dev_id) = Some v →
        ∃ last, v = JInt last) →
  ∃ generate_config,
    check_counter st ("ttn/" +:+ py_str app_id +:+ "/" +:+ py_str dev_id)
                  (JInt counter)
    = Ok (generate_config, counters (process st msg payload))
    ∧ yielded (process st msg payload)
      = when generate_config
             [json_dumps (outbound msg (map encode config) CONFIG_PORT)]
        ++ [json_dumps (outbound msg data DATA_PORT)]
    ∧ finished (process st msg payload) = Ok ()
    ∧ Dict.get "port" (outbound msg (map encode config) CONFIG_PORT)
      = Some (JInt CONFIG_PORT)
    ∧ Dict.get "port" (outbound msg data DATA_PORT) = Some (JInt DATA_PORT).
Proof.
  intros Hport Hdec Happ Hdev Hcounter Hint.
  pose proof (check_counter_int st _ counter Hint) as Hcheck.
  eexists. split; [|split; [|split; [|split]]].
  2-3: erewrite process_data_run;
    [reflexivity | by apply field_Some | exact Hdec
    | by unfold make_ttn_node_id; rewrite (field_Some _ _ _ Happ),
           (field_Some _ _ _ Hdev)
    | by apply field_Some | exact Hcheck].
  - erewrite process_data_run;
    [exact Hcheck | by apply field_Some | exact Hdec
    | by unfold make_ttn_node_id; rewrite (field_Some _ _ _ Happ),
           (field_Some _ _ _ Hdev)
    | by apply field_Some | exact Hcheck].
  - unfold outbound_envelope. rewrite dict_get_set_ne by done.
    apply dict_get_set_eq.
  - unfold outbound_envelope. rewrite dict_get_set_ne by done.
    apply dict_get_set_eq.
Qed.

(** C3. An envelope whose port is none of 10, 11, 12, 13, or whose port is
    10, 11 or 12 with a payload length outside the lengths of that port,
    yields nothing and leaves the counter map (and the envelope) as they
    were. *)
Theorem invalid_packet_dropped st msg payload port :
  Dict.get "port" msg = Some port →
  (port ≠ JInt 10 ∧ port ≠ JInt 11 ∧ port ≠ JInt 12 ∧ port ≠ JInt 13)
  ∨ (port = JInt 10 ∧ length payload ∉ [9; 10; 11]%nat)
  ∨ (port = JInt 11 ∧ length payload ∉ [11; 12; 15; 16]%nat)
  ∨ (port = JInt 12 ∧ length payload ∉ [13; 14; 17; 18]%nat) →
  process st msg payload = Run [] st msg Dropped.
Proof.
  intros Hport Hbad. unfold process_data.
  rewrite (field_Some _ _ _ Hport). simpl.
  by rewrite decode_packet_dropped.
Qed.

(** C7. The nine-byte port-10 payload with position bytes 000001 and
    FFFFFF, temperature 100 and humidity 400 decodes to the three readings
    for channels 0, 1 and 2 and nothing else; for a node without recorded
    counter the run yields the config message and then the data message. *)
Theorem port10_first_sighting st msg node counter :
  Dict.get "port" msg = Some (JInt 10) →
  make_ttn_node_id msg = Ok node →
  Dict.get "counter" msg = Some counter →
  st !! node = None →
  snd <$> decode_packet (JInt 10) payload10
  = Ok [ reading 0 (VList [1; -1]); reading 1 (VInt 100); reading 2 (VInt 400) ]
  ∧ process st msg payload10
    = Run [ json_dumps
              (outbound msg
                 (map encode [ node_config; position_config;
                               temperature_config; humidity_config ])
                 CONFIG_PORT);
            json_dumps
              (outbound msg
                 [ reading 0 (VList [1; -1]); reading 1 (VInt 100);
                   reading 2 (VInt 400) ]
                 DATA_PORT) ]
          (<[node := counter]> st)
          (outbound msg
             [ reading 0 (VList [1; -1]); reading 1 (VInt 100);
               reading 2 (VInt 400) ]
             DATA_PORT)
          (Ok ()).
Proof.
  intros Hport Hnode Hcounter Hst. split; [reflexivity|].
  rewrite (process_data_run st msg payload10 (JInt 10)
             [node_config; position_config; temperature_config; humidity_config]
             [reading 0 (VList [1; -1]); reading 1 (VInt 100);
              reading 2 (VInt 400)]
             node counter true (<[node := counter]> st));
    [reflexivity | by apply field_Some | reflexivity | exact Hnode
    | by apply field_Some | by apply check_counter_first].
Qed.
End EmitterFacts.

(** ** The sample packet, run with the stand-in serialisers *)

Lemma produce_message_frame_witness :
  "app_id" ≠ "port" ∧ "app_id" ≠ "payload_raw"
  ∧ ∃ out,
      produce_message sample_cbor sample_b64 sample_json sample_msg
                      [node_config] CONFIG_PORT
      = (sample_json out, out)
      ∧ Dict.get "port" out = Some (JInt 1)
      ∧ Dict.get "payload_raw" out = Some (JStr "1")
      ∧ Dict.get "app_id" out = Some (JStr "weather")
      ∧ Dict.keys out
        = [ "app_id"; "dev_id"; "port"; "counter"; "payload_raw";
            "hardware_serial" ].
Proof.
  split; [done|]. split; [done|].
  apply (produce_message_frame sample_cbor sample_b64 sample_json sample_msg
           [node_config] CONFIG_PORT "app_id"); done.
Defined.

Lemma process_data_config_then_data_witness :
  ∃ generate_config,
    check_counter ∅ "ttn/weather/node-1" (JInt 7)
    = Ok (generate_config,
          counters (process_data sample_cbor sample_b64 sample_json ∅
                                 sample_msg payload10))
    ∧ yielded (process_data sample_cbor sample_b64 sample_json ∅
                            sample_msg payload10)
      = when generate_config
          [ "app_id=weather,dev_id=node-1,port=1,counter=7,payload_raw=4,hardware_serial=0004A30B001C0530" ]
        ++ [ "app_id=weather,dev_id=node-1,port=2,counter=7,payload_raw=3,hardware_serial=0004A30B001C0530" ].
Proof.
  destruct (process_data_config_then_data sample_cbor sample_b64 sample_json
              ∅ sample_msg payload10 (JInt 10) _ _ (JStr "weather")
              (JStr "node-1") 7 eq_refl eq_refl eq_refl eq_refl eq_refl)
    as (gen & Hcheck & Hyielded & _).
  - intros v. rewrite lookup_empty. discriminate.
  - exists gen. split; [exact Hcheck|exact Hyielded].
Defined.

Lemma invalid_packet_dropped_witness :
  Dict.get "port" sample_msg = Some (JInt 10)
  ∧ (length payload12 ∉ [9; 10; 11]%nat)
  ∧ process_data sample_cbor sample_b64 sample_json ∅ sample_msg payload12
    = Run [] ∅ sample_msg Dropped.
Proof.
  assert (length payload12 ∉ [9; 10; 11]%nat) as Hlen.
  { rewrite !not_elem_of_cons. simpl. repeat split; try lia.
    apply not_elem_of_nil. }
  split; [reflexivity|]. split; [exact Hlen|].
  apply (invalid_packet_dropped sample_cbor sample_b64 sample_json ∅ sample_msg
           payload12 (JInt 10) eq_refl).
  right; left. split; [reflexivity|exact Hlen].
Defined.

Lemma port10_first_sighting_witness :
  make_ttn_node_id sample_msg = Ok "ttn/weather/node-1"
  ∧ yielded (process_data sample_cbor sample_b64 sample_json ∅ sample_msg
                          payload10)
    = [ "app_id=weather,dev_id=node-1,port=1,counter=7,payload_raw=4,hardware_serial=0004A30B001C0530";
        "app_id=weather,dev_id=node-1,port=2,counter=7,payload_raw=3,hardware_serial=0004A30B001C0530" ]
  ∧ counters (process_data sample_cbor sample_b64 sample_json ∅ sample_msg
                           payload10)
    = {[ "ttn/weather/node-1" := JInt 7 ]}.
Proof.
  split; [reflexivity|].
  destruct (port10_first_sighting sample_cbor sample_b64 sample_json ∅
              sample_msg "ttn/weather/node-1" (JInt 7) eq_refl eq_refl eq_refl
              (lookup_empty _)) as [_ ->].
  split; reflexivity.
Defined.

(** * Further properties *)

Lemma uint_of_bits_acc bs acc :
  fold_left (λ acc (b : bool), 2 * acc + Z.b2z b) bs acc
  = acc * 2 ^ Z.of_nat (length bs) + uint_of_bits bs.
Proof.
  unfold uint_of_bits. revert acc.
  induction bs as [|b bs IH]; intros acc; simpl fold_left.
  - simpl. lia.
  - rewrite IH, (IH (2 * 0 + Z.b2z b)).
    rewrite length_cons, Nat2Z.inj_succ, Z.pow_succ_r by lia. lia.
Qed.

Lemma uint_of_bits_cons b bs :
  uint_of_bits (b :: bs) = Z.b2z b * 2 ^ Z.of_nat (length bs) + uint_of_bits bs.
Proof.
  unfold uint_of_bits at 1. simpl fold_left. rewrite uint_of_bits_acc. lia.
Qed.

Lemma uint_of_bits_range bs : 0 ≤ uint_of_bits bs < 2 ^ Z.of_nat (length bs).
Proof.
  induction bs as [|b bs IH]; [by compute|].
  rewrite uint_of_bits_cons, length_cons, Nat2Z.inj_succ, Z.pow_succ_r by lia.
  destruct b; simpl Z.b2z; lia.
Qed.

Lemma int_of_bits_range bs :
  bs ≠ [] →
  - 2 ^ (Z.of_nat (length bs) - 1) ≤ int_of_bits bs < 2 ^ (Z.of_nat (length bs) - 1).
Proof.
  destruct bs as [|b bs]; [done|]. intros _.
  pose proof (uint_of_bits_range bs) as Hr.
  unfold int_of_bits.
  rewrite uint_of_bits_cons, length_cons, Nat2Z.inj_succ.
  replace (Z.succ (Z.of_nat (length bs)) - 1) with (Z.of_nat (length bs)) by lia.
  rewrite Z.pow_succ_r by lia.
  destruct b; simpl Z.b2z; lia.
Qed.

Lemma read_uint_range n s v s' :
  read_uint n s = Ok (v, s') → 0 ≤ v < 2 ^ Z.of_nat n.
Proof.
  unfold read_uint, fmap, reader_fmap, read_bits.
  case_decide; [|done]. intros [= <- _].
  pose proof (uint_of_bits_range (take n s)) as Hr.
  rewrite length_take, Nat.min_l in Hr by done. done.
Qed.

Lemma read_int_range n s v s' :
  (0 < n)%nat →
  read_int n s = Ok (v, s') →
  - 2 ^ (Z.of_nat n - 1) ≤ v < 2 ^ (Z.of_nat n - 1).
Proof.
  intros Hn. unfold read_int, fmap, reader_fmap, read_bits.
  case_decide; [|done]. intros [= <- _].
  pose proof (int_of_bits_range (take n s)) as Hr.
  rewrite length_take, Nat.min_l in Hr by done. apply Hr.
  intros Hnil. apply (f_equal length) in Hnil.
  rewrite length_take in Hnil. simpl in Hnil. lia.
Qed.

Lemma read_extras_loop_bounds fuel acc s vs s' :
  read_extras_loop fuel acc s = Ok (vs, s') →
  ∃ new, vs = acc ++ new
    ∧ Forall (λ v, 0 ≤ v < 2 ^ 32) new
    ∧ (6 * length new + length s' ≤ length s)%nat
    ∧ s' `suffix_of` s.
Proof.
  revert acc s. induction fuel as [|fuel IH]; intros acc s; simpl.
  { intros [= <- <-]. exists []. by rewrite app_nil_r. }
  unfold mbind, reader_bind, stream_remaining.
  case_decide; [|intros [= <- <-]; exists []; by rewrite app_nil_r].
  case_decide; [intros [= <- <-]; exists []; by rewrite app_nil_r|].
  destruct (read_uint 5 s) as [[size s1]| |e] eqn:Hsize; [|done..].
  pose proof (read_uint_range _ _ _ _ Hsize) as Hsz.
  apply read_uint_inv in Hsize as [Hlen5 ->].
  case_decide.
  { intros [= <- <-]. exists []. rewrite app_nil_r.
    split; [done|]. split; [done|]. split.
    - rewrite length_drop. simpl. lia.
    - apply suffix_drop. }
  destruct (read_uint _ (drop 5 s)) as [[value s2]| |e] eqn:Hvalue; [|done..].
  pose proof (read_uint_range _ _ _ _ Hvalue) as Hv.
  apply read_uint_inv in Hvalue as [Hlenv ->].
  intros (new & -> & Hnew & Hcount & Hsuffix)%IH.
  exists (value :: new). rewrite <- app_assoc. split; [done|].
  split; [|split].
  - constructor; [|done]. split; [lia|].
    eapply Z.lt_le_trans; [apply Hv|].
    apply Z.pow_le_mono_r; lia.
  - rewrite !length_drop in Hcount. rewrite length_drop in Hlenv.
    rewrite length_cons. lia.
  - etrans; [exact Hsuffix|]. etrans; apply suffix_drop.
Qed.

Ltac reader_ranges :=
  repeat match goal with
  | H : read_uint _ _ = Ok _ |- _ => apply read_uint_range in H
  | H : read_int _ _ = Ok _ |- _ => apply read_int_range in H; [|lia]
  | H : read_extras _ = Ok _ |- _ =>
      apply read_extras_loop_bounds in H as (? & -> & H & _ & _)
  end.

Lemma decode_fields_ranges f lc s config data s' :
  decode_fields f lc s = Ok (config, data, s') →
  Forall reading_in_range data.
Proof.
  unfold decode_fields. intros H.
  destruct f as [[] [] [] [] [] []]; cbn [have_supply have_battery
    have_firmware have_lux have_pm have_extra] in *;
    reader_inv; reader_ranges;
    repeat (apply Forall_cons; split); try apply Forall_nil;
    hnf; try done; simpl Z.of_nat in *; lia.
Qed.

Lemma uint_of_bits_of_byte b : uint_of_bits (bits_of_byte b) = Z.of_N (Byte.to_N b).
Proof. by destruct b. Qed.

Lemma read_bool_inv s v s' : read_bool s = Ok (v, s') → s = v :: s'.
Proof. destruct s; [done|]. by intros [= -> ->]. Qed.

(** What a successful variant selection tells about port, length and
    stream. *)
Lemma select_variant_inv port len s f lc s' :
  select_variant port len s = Ok (f, lc, s') →
  (∃ p, port = JInt p ∧ (p = 10 ∨ p = 11 ∨ p = 12)
        ∧ s' = s ∧ lc = lux_config ∧ have_extra f = false
        ∧ have_firmware f = bool_decide (p ≠ 10)
        ∧ needed_bits f = (8 * len)%nat)
  ∨ (port = JInt 13 ∧ lc = lux_config_scaled
     ∧ have_firmware f = true ∧ have_supply f = true
     ∧ ∃ flag_bits, length flag_bits = 8%nat ∧ s = flag_bits ++ s').
Proof.
  unfold select_variant, port_is. destruct port as [p|str]; [|done].
  repeat case_bool_decide; subst; [..|done].
  1-3: repeat case_decide; subst; unfold drop_packet; try done;
       intros Heq; apply reader_ret_Ok in Heq; simplify_eq;
       left; eexists; (split; [done|]); (split; [by eauto|]); repeat split.
  intros Hsel. right. reader_inv.
  repeat match goal with
  | H : read_bool _ = Ok _ |- _ => apply read_bool_inv in H as ->
  end.
  match goal with
  | H : read_uint 4 ?rest = Ok (_, ?e :: _) |- _ =>
      apply read_uint_inv in H as [Hlen Hrest];
      repeat split;
      match goal with
      | |- ∃ _, _ ∧ ?a :: ?b :: ?c :: _ = _ =>
          exists ([a; b; c] ++ take 4 rest ++ [e])
      end
  end.
  split.
  - rewrite !length_app, !length_take. cbn [length]. lia.
  - simpl. do 3 f_equal. rewrite <- !app_assoc. simpl.
    rewrite Hrest. by rewrite take_drop.
Qed.

(** ** Further properties of the packet decoder *)

Lemma decode_packet_inv port payload config data :
  decode_packet port payload = Ok (config, data) →
  ∃ f lc s s',
    select_variant port (length payload) (bits_of_bytes payload) = Ok (f, lc, s)
    ∧ decode_fields f lc s = Ok (config, data, s').
Proof.
  unfold decode_packet, decode_stream. intros [s' H]%fmap_fst_Ok.
  apply reader_bind_Ok in H as ([f lc] & s & Hsel & H). eauto 6.
Qed.

Lemma decode_fields_rest f lc s config data s' :
  have_extra f = false →
  decode_fields f lc s = Ok (config, data, s') →
  s' = drop (needed_bits f) s.
Proof.
  unfold decode_fields, needed_bits. intros Hextra H.
  destruct f as [[] [] [] [] [] []]; try discriminate Hextra;
    cbn [have_supply have_battery have_firmware have_lux have_pm have_extra] in *;
    reader_inv;
    repeat match goal with
    | H : read_uint _ _ = Ok _ |- _ => apply read_uint_inv in H as [_ ->]
    | H : read_int _ _ = Ok _ |- _ => apply read_int_inv in H as [_ ->]
    end;
    by rewrite ?drop_drop.
Qed.

Lemma decode_fields_firmware f lc s config data s' :
  decode_fields f lc s = Ok (config, data, s') →
  head config
  = Some (if have_firmware f
          then Dict.set (KStr "firmware_version")
                        (VInt (uint_of_bits (take 8 s))) node_config
          else node_config).
Proof.
  unfold decode_fields. intros H.
  destruct (have_firmware f).
  - apply reader_bind_Ok in H as (nc & s1 & Hfw & H).
    apply reader_bind_Ok in Hfw as (fw & s2 & Hfw & Hret).
    apply reader_ret_Ok in Hret as [= -> ->].
    unfold read_uint, fmap, reader_fmap, read_bits in Hfw.
    case_decide; [|done]. injection Hfw as <- <-.
    destruct (have_supply f), (have_lux f), (have_pm f), (have_battery f),
      (have_extra f); reader_inv; done.
  - destruct (have_supply f), (have_lux f), (have_pm f), (have_battery f),
      (have_extra f); reader_inv; done.
Qed.

(** X1. Every reading of a decoded packet respects the width of its wire
    field: 24-bit signed coordinates, 12-bit signed temperature and
    humidity, 8-bit unsigned voltages, 16-bit unsigned light and
    particulate values, extra values below 2^32. *)
Theorem decoded_readings_in_range port payload config data :
  decode_packet port payload = Ok (config, data) →
  Forall reading_in_range data.
Proof.
  intros (f & lc & s & s' & _ & H)%decode_packet_inv.
  by eapply decode_fields_ranges.
Qed.

Lemma decoded_readings_in_range_witness :
  ∃ config data,
    decode_packet (JInt 13) payload13 = Ok (config, data)
    ∧ Forall reading_in_range data.
Proof.
  eexists _, _. split; [reflexivity|].
  apply (decoded_readings_in_range (JInt 13) payload13 _ _ eq_refl).
Defined.

(** X2. In every decoded packet the descriptors after the node descriptor
    and the readings name the same channels in the same order, and the
    node descriptor has no channel id. *)
Theorem descriptors_match_readings port payload config data :
  decode_packet port payload = Ok (config, data) →
  channel_of <$> tail config = channel_of <$> data
  ∧ head config ≫= channel_of = None
  ∧ length config = S (length data).
Proof.
  intros (f & lc & s & s' & Hsel & H)%decode_packet_inv.
  assert (channel_of lc = Some (VInt 5)) as Hlc.
  { apply select_variant_inv in Hsel
      as [(p & _ & _ & _ & -> & _)|(_ & -> & _)]; done. }
  pose proof (decode_fields_shape _ _ _ _ _ _ H) as ([fw ->] & Hdata & _).
  rewrite Hdata. apply (f_equal length) in Hdata.
  rewrite length_fmap in Hdata. rewrite Hdata.
  destruct f as [[] [] [] [] [] []]; simpl; rewrite ?Hlc; done.
Qed.

Lemma descriptors_match_readings_witness :
  ∃ config data,
    decode_packet (JInt 13) payload13 = Ok (config, data)
    ∧ channel_of <$> tail config = channel_of <$> data
    ∧ length config = 8%nat.
Proof.
  eexists _, _. split; [reflexivity|].
  destruct (descriptors_match_readings (JInt 13) payload13 _ _ eq_refl)
    as (Hc & _ & Hl).
  split; [exact Hc|exact Hl].
Defined.

(** X3. On ports 10, 11 and 12 a packet that decodes has been read to its
    last bit: the accepted lengths are exactly the sizes of the layouts. *)
Theorem legacy_layout_consumes_payload port payload config data rest :
  decode_stream port (length payload) (bits_of_bytes payload)
  = Ok (config, data, rest) →
  port ≠ JInt 13 →
  rest = [].
Proof.
  unfold decode_stream. intros H Hport.
  apply reader_bind_Ok in H as ([f lc] & s & Hsel & H).
  apply select_variant_inv in Hsel
    as [(p & _ & _ & -> & _ & Hextra & _ & Hneeded)|(-> & _)]; [|done].
  apply decode_fields_rest in H as ->; [|done].
  apply drop_ge. rewrite length_bits_of_bytes. lia.
Qed.

Lemma legacy_layout_consumes_payload_witness :
  ∃ config data,
    decode_stream (JInt 12) (length payload12) (bits_of_bytes payload12)
    = Ok (config, data, []).
Proof.
  destruct (decode_stream (JInt 12) (length payload12) (bits_of_bytes payload12))
    as [[[config data] rest]| |e] eqn:H; [|by vm_compute in H..].
  rewrite (legacy_layout_consumes_payload (JInt 12) payload12 config data rest H);
    [by eauto|done].
Defined.

(** X4. The firmware version in the node descriptor is the value of one
    payload byte: the first on ports 11 and 12, the one after the flag byte
    on port 13; on port 10 the node descriptor has no firmware version. *)
Theorem firmware_version_byte port payload config data :
  decode_packet port payload = Ok (config, data) →
  head config
  = Some (match firmware_byte port payload with
          | Some b => Dict.set (KStr "firmware_version")
                               (VInt (Z.of_N (Byte.to_N b))) node_config
          | None => node_config
          end)
  ∧ (port ≠ JInt 10 → is_Some (firmware_byte port payload)).
Proof.
  intros (f & lc & s & s' & Hsel & H)%decode_packet_inv.
  pose proof (decode_fields_ok f lc s) as Hok.
  assert (needed_bits f ≤ length s)%nat as Hlen.
  { destruct (decide (needed_bits f ≤ length s)%nat); [done|].
    rewrite decode_fields_short in H by lia. done. }
  apply decode_fields_firmware in H as ->.
  apply select_variant_inv in Hsel
    as [(p & -> & Hp & -> & _ & _ & Hfw & Hneeded)
       |(-> & _ & Hfw & _ & flag_bits & Hflag & Hs)]; rewrite Hfw.
  - destruct Hp as [-> | [-> | ->] ]; [done|..];
      (destruct payload as [|b0 rest];
        [exfalso; unfold needed_bits in Hlen; rewrite Hfw in Hlen;
         simpl in Hlen; lia|]);
      (split; [|by eexists]);
      change (take 8 (bits_of_bytes (b0 :: rest))) with (bits_of_byte b0);
      rewrite uint_of_bits_of_byte; reflexivity.
  - destruct payload as [|b0 [|b1 rest] ].
    + exfalso. apply (f_equal length) in Hs.
      rewrite length_app in Hs. simpl in Hs. lia.
    + exfalso. apply (f_equal length) in Hs.
      rewrite length_app, length_bits_of_bytes in Hs.
      unfold needed_bits in Hlen. rewrite Hfw in Hlen. simpl in *. lia.
    + split; [|by eexists].
      assert (s = bits_of_bytes (b1 :: rest)) as ->.
      { change (bits_of_bytes (b0 :: b1 :: rest))
          with (bits_of_byte b0 ++ bits_of_bytes (b1 :: rest)) in Hs.
        apply app_inj_1 in Hs as [_ Hs]; [done|by rewrite Hflag]. }
      change (take 8 (bits_of_bytes (b1 :: rest))) with (bits_of_byte b1).
      rewrite uint_of_bits_of_byte. reflexivity.
Qed.

Lemma firmware_version_byte_witness :
  ∃ config data,
    decode_packet (JInt 13) payload13 = Ok (config, data)
    ∧ head config
      = Some [ (KStr "item_type", VStr "node");
               (KStr "firmware_version", VInt 7) ].
Proof.
  eexists _, _. split; [reflexivity|].
  destruct (firmware_version_byte (JInt 13) payload13 _ _ eq_refl) as [-> _].
  reflexivity.
Defined.

Lemma legacy_decode f lc (port : jval) (payload : list byte) channels :
  select_variant port (length payload) (bits_of_bytes payload)
  = Ok (f, lc, bits_of_bytes payload) →
  needed_bits f = (8 * length payload)%nat →
  [Some (VInt 0); Some (VInt 1); Some (VInt 2)]
  ++ when (have_supply f) [Some (VInt 3)]
  ++ when (have_lux f) [Some (VInt 5)]
  ++ when (have_pm f) [Some (VInt 6); Some (VInt 7)]
  ++ when (have_battery f) [Some (VInt 4)]
  ++ when (have_extra f) [Some (VInt 8)] = channels →
  ∃ config data,
    decode_packet port payload = Ok (config, data)
    ∧ channel_of <$> data = channels.
Proof.
  intros Hsel Hneeded <-.
  destruct (decode_fields_ok f lc (bits_of_bytes payload))
    as (config & data & s' & Hd); [rewrite length_bits_of_bytes; lia|].
  exists config, data.
  unfold decode_packet, decode_stream, mbind, reader_bind.
  rewrite Hsel, Hd. split; [done|].
  by apply decode_fields_shape in Hd as (_ & -> & _).
Qed.

(** X5. Ports 10, 11 and 12 never raise: a payload whose length is in the
    table of its port decodes, with exactly the channels of that length in
    the data list, and any other length is dropped. *)
Theorem legacy_ports_decode_or_drop (port : Z) (payload : list byte) :
  port = 10 ∨ port = 11 ∨ port = 12 →
  match legacy_channels port (length payload) with
  | Some channels =>
      ∃ config data,
        decode_packet (JInt port) payload = Ok (config, data)
        ∧ channel_of <$> data = (λ c, Some (VInt c)) <$> channels
  | None => decode_packet (JInt port) payload = Dropped
  end.
Proof.
  intros Hport. unfold legacy_channels.
  destruct Hport as [-> | [-> | ->] ];
    repeat case_decide; try done;
    try (apply decode_packet_dropped; right;
         rewrite !not_elem_of_cons; by eauto 10 using not_elem_of_nil);
    match goal with
    | H : length payload = _ |- _ =>
        eapply legacy_decode;
        [rewrite H; reflexivity | rewrite H; reflexivity | reflexivity]
    end.
Qed.

Lemma legacy_ports_decode_or_drop_witness :
  (∃ config data,
     decode_packet (JInt 12) payload12 = Ok (config, data)
     ∧ channel_of <$> data
       = [ Some (VInt 0); Some (VInt 1); Some (VInt 2); Some (VInt 3);
           Some (VInt 5) ])
  ∧ decode_packet (JInt 11) payload12 = Dropped.
Proof.
  split.
  - apply (legacy_ports_decode_or_drop 12 payload12). by right; right.
  - apply (legacy_ports_decode_or_drop 11 payload12). by right; left.
Defined.

(** X6. On port 13 the four flag bits between the battery flag and the
    extra flag are never looked at: two payloads that differ only there
    decode alike. *)
Theorem port13_reserved_bits_ignored (b0 b0' : byte) (rest : list byte) :
  flag_bit b0 7 = flag_bit b0' 7 → flag_bit b0 6 = flag_bit b0' 6 →
  flag_bit b0 5 = flag_bit b0' 5 → flag_bit b0 0 = flag_bit b0' 0 →
  decode_packet (JInt 13) (b0 :: rest) = decode_packet (JInt 13) (b0' :: rest).
Proof.
  intros H7 H6 H5 H0. rewrite !decode_packet_13. by rewrite H7, H6, H5, H0.
Qed.

Lemma port13_reserved_bits_ignored_witness :
  decode_packet (JInt 13) (xa1 :: tail payload13)
  = decode_packet (JInt 13) (xbf :: tail payload13).
Proof.
  apply (port13_reserved_bits_ignored xa1 xbf (tail payload13)); reflexivity.
Defined.

(** X7. The extra-value loop never raises; it yields values below 2^32,
    at most one per six bits, and what it leaves is the end of the stream
    it was given. *)
Theorem read_extras_bounds (s : list bool) :
  ∃ extra_value s',
    read_extras s = Ok (extra_value, s')
    ∧ Forall (λ v, 0 ≤ v < 2 ^ 32) extra_value
    ∧ (6 * length extra_value + length s' ≤ length s)%nat
    ∧ s' `suffix_of` s.
Proof.
  destruct (read_extras_total s) as (vs & s' & H).
  exists vs, s'. split; [done|].
  rewrite read_extras_unfold in H.
  apply read_extras_loop_bounds in H as (new & -> & ? & ? & ?). done.
Qed.

Lemma take_drop_app_prefix {A} (k n : nat) (s junk : list A) :
  (k + n ≤ length s)%nat →
  take n (drop k (s ++ junk)) = take n (drop k s).
Proof.
  intros H. rewrite drop_app_le by lia.
  apply take_app_le. rewrite length_drop. lia.
Qed.

Lemma decode_fields_surplus f lc s junk :
  have_extra f = false →
  (needed_bits f ≤ length s)%nat →
  fst <$> decode_fields f lc (s ++ junk) = fst <$> decode_fields f lc s.
Proof.
  unfold decode_fields, needed_bits. intros Hextra H.
  assert (length s ≤ length (s ++ junk))%nat as Hle
    by (rewrite length_app; lia).
  destruct f as [[] [] [] [] [] []]; try discriminate Hextra;
    cbn [have_supply have_battery have_firmware have_lux have_pm have_extra] in *;
    reader_unfold; reader_run; rewrite ?drop_drop;
    rewrite ?take_drop_app_prefix by lia;
    rewrite ?take_app_le by lia; reflexivity.
Qed.

Lemma bits_of_bytes_app (p1 p2 : list byte) :
  bits_of_bytes (p1 ++ p2) = bits_of_bytes p1 ++ bits_of_bytes p2.
Proof. unfold bits_of_bytes. by rewrite map_app, concat_app. Qed.

(** X8. Port 13 has no length check: when the extra flag is clear, bytes
    after the last announced field are ignored. *)
Theorem port13_surplus_bytes_ignored (b0 : byte) (rest junk : list byte) :
  flag_bit b0 0 = false →
  (needed_bits (Flags true (flag_bit b0 5) true (flag_bit b0 7)
                      (flag_bit b0 6) false) ≤ 8 * length rest)%nat →
  decode_packet (JInt 13) (b0 :: rest ++ junk)
  = decode_packet (JInt 13) (b0 :: rest)
  ∧ ∃ config data, decode_packet (JInt 13) (b0 :: rest) = Ok (config, data).
Proof.
  intros Hextra Hlen. rewrite !decode_packet_13, Hextra.
  rewrite bits_of_bytes_app.
  rewrite decode_fields_surplus; [|done|by rewrite length_bits_of_bytes].
  split; [done|].
  destruct (decode_fields_ok
              (Flags true (flag_bit b0 5) true (flag_bit b0 7) (flag_bit b0 6) false)
              lux_config_scaled (bits_of_bytes rest))
    as (config & data & s' & ->); [by rewrite length_bits_of_bytes|].
  by eauto.
Qed.

Lemma port13_surplus_bytes_ignored_witness :
  decode_packet (JInt 13) (x00 :: tail payload12 ++ [xde; xad])
  = decode_packet (JInt 13) (x00 :: tail payload12).
Proof.
  refine (proj1 (port13_surplus_bytes_ignored x00 (tail payload12) [xde; xad]
                   eq_refl _)).
  vm_compute. lia.
Defined.

(** ** Further properties of the config state tracker *)

Lemma counter_decisions_known st node prev cs :
  st !! node = Some (JInt prev) →
  counter_decisions st node cs = descents prev cs.
Proof.
  revert st prev. induction cs as [|c cs IH]; intros st prev Hst; [done|].
  simpl. unfold check_counter. rewrite Hst. simpl.
  f_equal. apply IH. apply lookup_insert_eq.
Qed.

(** X9. Over a sequence of integer counters of a node not seen before, the
    first packet asks for a config message and every later one does so
    exactly when its counter is below the one just before it; a sequence
    that never decreases asks only once. *)
Theorem counter_sequence_decisions (st : gmap string jval) (node : string)
    (c : Z) (cs : list Z) :
  st !! node = None →
  counter_decisions st node (c :: cs) = true :: descents c cs
  ∧ (Sorted Z.le (c :: cs) →
     counter_decisions st node (c :: cs) = true :: replicate (length cs) false).
Proof.
  intros Hst.
  assert (counter_decisions st node (c :: cs) = true :: descents c cs) as Heq.
  { simpl. rewrite check_counter_first by done.
    f_equal. apply counter_decisions_known. apply lookup_insert_eq. }
  split; [done|]. rewrite Heq. intros Hsorted. f_equal.
  clear Heq Hst. revert c Hsorted.
  induction cs as [|c' cs IH]; intros c Hsorted; [done|].
  apply Sorted_inv in Hsorted as [Hsorted Hhd].
  apply HdRel_inv in Hhd. simpl.
  rewrite bool_decide_eq_false_2 by lia. f_equal. by apply IH.
Qed.

Lemma counter_sequence_decisions_witness :
  counter_decisions ∅ "ttn/weather/node-1" [50; 51; 3; 3; 4]
  = [true; false; true; false; false].
Proof.
  apply (proj1 (counter_sequence_decisions ∅ "ttn/weather/node-1" 50
                  [51; 3; 3; 4] (lookup_empty _))).
Defined.

(** ** Further properties of whole-packet processing *)



Section ProcessFacts.
Variable cbor_dumps : list item → list byte.
Variable b64encode : list byte → string.
Variable json_dumps : envelope → string.

Local Abbreviation produce := (produce_message cbor_dumps b64encode json_dumps).
Local Abbreviation process := (process_data cbor_dumps b64encode json_dumps).
Local Abbreviation outbound := (outbound_envelope cbor_dumps b64encode).




(** X12. A port-13 payload that ends before the fields announced by its
    flag byte raises [ReadError]: nothing is yielded and the counter map is
    not updated. *)
Theorem port13_truncated_payload st msg payload :
  Dict.get "port" msg = Some (JInt 13) →
  match payload with
  | [] => True
  | b0 :: rest =>
      (8 * length rest
       < needed_bits (Flags true (flag_bit b0 5) true (flag_bit b0 7)
                            (flag_bit b0 6) (flag_bit b0 0)))%nat
  end →
  process st msg payload = Run [] st msg (Raised ReadError).
Proof.
  intros Hport Hshort. unfold process_data.
  rewrite (field_Some _ _ _ Hport). simpl.
  destruct payload as [|b0 rest].
  - by rewrite decode_packet_13_empty.
  - rewrite decode_packet_13, decode_fields_short; [done|].
    by rewrite length_bits_of_bytes.
Qed.

(** X13. A frame counter that is a string where the recorded one is an
    integer, or the other way round, raises [TypeError] at the comparison:
    nothing is yielded and the recorded counter stays. *)
Theorem mixed_counter_types_raise st msg payload port config data node
    (last : Z) (text : string) :
  Dict.get "port" msg = Some port →
  decode_packet port payload = Ok (config, data) →
  make_ttn_node_id msg = Ok node →
  (Dict.get "counter" msg = Some (JStr text) ∧ st !! node = Some (JInt last))
  ∨ (Dict.get "counter" msg = Some (JInt last) ∧ st !! node = Some (JStr text)) →
  process st msg payload = Run [] st msg (Raised TypeError).
Proof.
  intros Hport Hdec Hnode Hmixed. unfold process_data.
  rewrite (field_Some _ _ _ Hport). simpl. rewrite Hdec. simpl.
  rewrite Hnode. simpl.
  destruct Hmixed as [[Hc Hst]|[Hc Hst]];
    rewrite (field_Some _ _ _ Hc); simpl;
    unfold check_counter; rewrite Hst; done.
Qed.

(** X14. The envelope object is shared between the messages of a run, but
    what the first [produce_message] wrote into it never shows in the
    second message: it is the message the inbound envelope would give. *)
Theorem produce_message_twice msg payload1 port1 payload2 port2 :
  produce_message cbor_dumps b64encode json_dumps
    (snd (produce_message cbor_dumps b64encode json_dumps msg payload1 port1))
    payload2 port2
  = produce_message cbor_dumps b64encode json_dumps msg payload2 port2.
Proof.
  unfold produce_message. cbv zeta. cbn [snd].
  rewrite (dict_set_overwrite "port" "payload_raw") by done.
  by rewrite dict_set_set.
Qed.
End ProcessFacts.

(** ** Further properties of dicts, catalog and compactor *)

Section DictMore.
Context {K V : Type} `{EqDecision K}.
Implicit Types (d : list (K * V)) (k : K) (v : V).

Lemma dict_get_None k d : Dict.get k d = None ↔ k ∉ Dict.keys d.
Proof.
  unfold Dict.keys. induction d as [|[k' v'] d IH]; simpl.
  - split; [intros _; apply not_elem_of_nil|done].
  - rewrite not_elem_of_cons. case_decide; [|tauto].
    split; [done|]. by intros [? _].
Qed.

Lemma dict_get_elem_of k v d :
  NoDup (Dict.keys d) → Dict.get k d = Some v ↔ (k, v) ∈ d.
Proof.
  unfold Dict.keys. induction d as [|[k' v'] d IH]; simpl.
  - intros _. split; [done|]. by intros ?%elem_of_nil.
  - intros [Hk' Hd]%NoDup_cons. rewrite elem_of_cons. case_decide as Hk.
    + subst k'. split; [by intros [= ->]; left|].
      intros [[= ->]|Hin]; [done|]. exfalso. apply Hk'.
      apply list_elem_of_fmap. by exists (k, v).
    + rewrite IH by done. split; [by right|]. by intros [[= -> ->]|?].
Qed.

Lemma dict_set_fresh k v d :
  k ∉ Dict.keys d → Dict.set k v d = d ++ [(k, v)].
Proof.
  unfold Dict.keys. induction d as [|[k' v'] d IH]; simpl; [done|].
  rewrite not_elem_of_cons. intros [Hne Hnotin].
  rewrite decide_False by done. by rewrite IH.
Qed.

Lemma dict_set_keys_NoDup k v d :
  NoDup (Dict.keys d) → NoDup (Dict.keys (Dict.set k v d)).
Proof.
  intros Hd. destruct (Dict.get k d) as [v'|] eqn:Hget.
  - by rewrite dict_keys_set_present by (by rewrite Hget).
  - rewrite dict_keys_set_absent by done.
    apply NoDup_app. split; [done|]. split; [|apply NoDup_singleton].
    intros k' Hk' ->%list_elem_of_singleton. by apply dict_get_None in Hget.
Qed.

Lemma dict_set_length k v d :
  (length d ≤ length (Dict.set k v d) ≤ S (length d))%nat.
Proof.
  induction d as [|[k' v'] d IH]; simpl; [lia|].
  case_decide; simpl; lia.
Qed.

Lemma dict_set_Forall (P : K * V → Prop) k v d :
  P (k, v) → Forall P d → Forall P (Dict.set k v d).
Proof.
  intros Hkv. induction 1 as [|[k' v'] d Hx Hd IH]; simpl.
  - by constructor.
  - case_decide; [subst; by constructor|by constructor].
Qed.

(** A loop of item assignments whose keys are all new and distinct just
    appends. *)
Lemma fold_set_fresh {A} (f : A → K * V) (l : list A) d :
  NoDup (Dict.keys d ++ (f <$> l).*1) →
  fold_left (λ out a, Dict.set (f a).1 (f a).2 out) l d = d ++ (f <$> l).
Proof.
  revert d. induction l as [|a l IH]; intros d Hnd; simpl.
  - by rewrite app_nil_r.
  - simpl in Hnd. rewrite dict_set_fresh.
    + rewrite IH.
      * rewrite <- app_assoc. simpl. by destruct (f a).
      * unfold Dict.keys in *. rewrite fmap_app. simpl.
        by rewrite <- app_assoc.
    + apply NoDup_app in Hnd as (_ & Hdisj & _).
      intros Hin. apply (Hdisj _ Hin). left.
Qed.
End DictMore.

(** X15. Inverting a catalog whose codes are distinct and whose names are
    distinct gives its exact inverse: a name looks up to a code in the
    inverted catalog if and only if the code looks up to that name in the
    catalog. *)
Theorem dict_invert_inverse {K V : Type} `{EqDecision K} `{EqDecision V}
    (d : list (K * V)) (k : K) (v : V) :
  NoDup d.*1 → NoDup d.*2 →
  Dict.get v (Dict.invert d) = Some k ↔ Dict.get k d = Some v.
Proof.
  intros Hkeys Hvalues.
  assert (Dict.invert d = (λ kv, (kv.2, kv.1)) <$> d) as Hinv.
  { unfold Dict.invert.
    rewrite (fold_set_fresh (λ kv : K * V, (kv.2, kv.1))); [done|].
    simpl. rewrite <- list_fmap_compose.
    by replace (fst ∘ (λ kv : K * V, (kv.2, kv.1))) with (@snd K V). }
  rewrite Hinv, !dict_get_elem_of; [| done |].
  - rewrite list_elem_of_fmap. split.
    + by intros ([k' v'] & [= -> ->] & Hin).
    + intros Hin. by exists (k, v).
  - unfold Dict.keys. rewrite <- list_fmap_compose.
    by replace (fst ∘ (λ kv : K * V, (kv.2, kv.1))) with (@snd K V).
Qed.

Lemma dict_invert_inverse_witness :
  Dict.get "unit" CONFIG_PACKET_KEYS_INVERTED = Some 3
  ↔ Dict.get 3 CONFIG_PACKET_KEYS = Some "unit".
Proof.
  apply (dict_invert_inverse CONFIG_PACKET_KEYS 3 "unit");
    apply (bool_decide_unpack _); vm_compute; exact I.
Defined.

(** One round of the loop, in terms of the two rewrites. *)
Lemma encode_entry_eq keys values out kv :
  encode_entry keys values out kv
  = Dict.set (encode_key keys kv.1) (encode_value values kv.1 kv.2) out.
Proof. by destruct kv as [[k|z] [z'|q|s|l]]. Qed.

Lemma encode_cbor_obj_fold obj keys values :
  encode_cbor_obj obj keys values
  = fold_left
      (λ out kv,
         Dict.set ((λ kv, (encode_key keys kv.1, encode_value values kv.1 kv.2)) kv).1
                  ((λ kv, (encode_key keys kv.1, encode_value values kv.1 kv.2)) kv).2
                  out)
      obj [].
Proof.
  unfold encode_cbor_obj. generalize (@nil (pykey * pyval)).
  induction obj as [|kv obj IH]; intros out; simpl; [done|].
  by rewrite encode_entry_eq, IH.
Qed.

(** X16. Compaction rewrites entry by entry and keeps the order: as long
    as the coded keys of an object are distinct, the result has one entry
    per entry of the object, with the key coded and the value coded. *)
Theorem encode_cbor_obj_entrywise (obj : item) keys values :
  NoDup (encode_key keys <$> obj.*1) →
  encode_cbor_obj obj keys values
  = (λ kv, (encode_key keys kv.1, encode_value values kv.1 kv.2)) <$> obj.
Proof.
  intros Hnd. rewrite encode_cbor_obj_fold.
  rewrite fold_set_fresh; [done|]. simpl.
  rewrite <- !list_fmap_compose in *. exact Hnd.
Qed.

Lemma encode_cbor_obj_entrywise_witness :
  encode vcc_config
  = [ (KInt 5, VInt 2); (KInt 1, VInt 3); (KInt 2, VInt 3); (KInt 3, VInt 3);
      (KInt 6, VStr "supply"); (KInt 7, VInt 100); (KStr "offset", VInt 1) ].
Proof.
  unfold encode. rewrite encode_cbor_obj_entrywise; [reflexivity|].
  apply (bool_decide_unpack _); vm_compute; exact I.
Defined.

(** Two keys that get the same code collapse into one entry, which keeps
    the place of the first and the value of the second. *)
Example encode_colliding_keys :
  encode [ (KStr "channel_id", VInt 8); (KStr "unit", VStr "lux");
           (KInt 1, VInt 9) ]
  = [ (KInt 1, VInt 9); (KInt 3, VInt 5) ].
Proof. reflexivity. Qed.

Lemma encode_fold_invariant (P : pykey * pyval → Prop) keys values obj out :
  (∀ kv, P (encode_key keys kv.1, encode_value values kv.1 kv.2)) →
  NoDup (Dict.keys out) → Forall P out →
  let out' := fold_left (encode_entry keys values) obj out in
  NoDup (Dict.keys out') ∧ Forall P out'
  ∧ (length out ≤ length out' ≤ length out + length obj)%nat.
Proof.
  intros HP. revert out. induction obj as [|kv obj IH]; intros out Hnd Hall.
  - simpl. repeat split; [done..|lia|lia].
  - simpl. rewrite encode_entry_eq.
    destruct (IH (Dict.set (encode_key keys kv.1) (encode_value values kv.1 kv.2) out))
      as (Hnd' & Hall' & Hlen').
    + by apply dict_set_keys_NoDup.
    + by apply dict_set_Forall.
    + pose proof (dict_set_length (encode_key keys kv.1)
                    (encode_value values kv.1 kv.2) out).
      repeat split; [done..|lia|lia].
Qed.

(** X17. Whatever the object, the compacted object has distinct keys and at
    most as many entries as the object, and none of its string keys has a
    catalog code. *)
Theorem encode_cbor_obj_keys_distinct (obj : item) keys values :
  NoDup (Dict.keys (encode_cbor_obj obj keys values))
  ∧ (length (encode_cbor_obj obj keys values) ≤ length obj)%nat
  ∧ Forall (λ kv, ∀ k, kv.1 = KStr k → Dict.get k keys = None)
           (encode_cbor_obj obj keys values).
Proof.
  destruct (encode_fold_invariant
              (λ kv, ∀ k, kv.1 = KStr k → Dict.get k keys = None)
              keys values obj []) as (Hnd & Hall & Hlen).
  - intros [[k|z] v] k'; simpl; [|done].
    destruct (Dict.get k keys) eqn:Hk; [done|]. by intros [= <-].
  - apply NoDup_nil_2.
  - constructor.
  - unfold encode_cbor_obj. simpl in *. repeat split; [done|lia|done].
Qed.

(** In the catalogs of this converter every key that has a value table
    also has a key code. *)
Lemma value_tables_have_key_codes (k : string) :
  Dict.get k CONFIG_PACKET_KEYS_INVERTED = None →
  Dict.get k CONFIG_PACKET_VALUES_INVERTED = None.
Proof.
  let keys := eval vm_compute in CONFIG_PACKET_KEYS_INVERTED in
  change CONFIG_PACKET_KEYS_INVERTED with keys.
  let values := eval vm_compute in CONFIG_PACKET_VALUES_INVERTED in
  change CONFIG_PACKET_VALUES_INVERTED with values.
  simpl. repeat case_decide; done.
Qed.

Lemma encode_value_coded_key values (z : Z) (v : pyval) :
  encode_value values (KInt z) v = v.
Proof. by destruct v. Qed.

Lemma encode_value_no_table values (k : string) (v : pyval) :
  Dict.get k values = None → encode_value values (KStr k) v = v.
Proof. intros Hk. destruct v; simpl; [done..| |done]. by rewrite Hk. Qed.

Lemma encode_entry_fixed (k : pykey) (v : pyval) :
  encode_key CONFIG_PACKET_KEYS_INVERTED
             (encode_key CONFIG_PACKET_KEYS_INVERTED k)
  = encode_key CONFIG_PACKET_KEYS_INVERTED k
  ∧ encode_value CONFIG_PACKET_VALUES_INVERTED
                 (encode_key CONFIG_PACKET_KEYS_INVERTED k)
                 (encode_value CONFIG_PACKET_VALUES_INVERTED k v)
    = encode_value CONFIG_PACKET_VALUES_INVERTED k v.
Proof.
  destruct k as [k|z]; [|by cbn [encode_key]; rewrite !encode_value_coded_key].
  unfold encode_key at 2 3 4.
  destruct (Dict.get k CONFIG_PACKET_KEYS_INVERTED) as [code|] eqn:Hk.
  - split; [done|]. apply encode_value_coded_key.
  - split; [by unfold encode_key; rewrite Hk|].
    by rewrite !encode_value_no_table by by apply value_tables_have_key_codes.
Qed.

(** X18. Compacting an already compacted descriptor changes nothing. *)
Theorem encode_idempotent (obj : item) : encode (encode obj) = encode obj.
Proof.
  unfold encode.
  destruct (encode_fold_invariant
              (λ kv, encode_key CONFIG_PACKET_KEYS_INVERTED kv.1 = kv.1
                     ∧ encode_value CONFIG_PACKET_VALUES_INVERTED kv.1 kv.2 = kv.2)
              CONFIG_PACKET_KEYS_INVERTED CONFIG_PACKET_VALUES_INVERTED obj [])
    as (Hnd & Hall & _).
  - intros [k v]. apply encode_entry_fixed.
  - apply NoDup_nil_2.
  - constructor.
  - simpl in Hnd, Hall. fold (encode_cbor_obj obj CONFIG_PACKET_KEYS_INVERTED
                                CONFIG_PACKET_VALUES_INVERTED) in Hnd, Hall.
    set (out := encode_cbor_obj obj _ _) in *.
    assert ((λ kv : pykey * pyval,
               (encode_key CONFIG_PACKET_KEYS_INVERTED kv.1,
                encode_value CONFIG_PACKET_VALUES_INVERTED kv.1 kv.2)) <$> out
            = out) as Hfix.
    { clear Hnd. induction Hall as [|[k v] l [Hk Hv] _ IH]; [done|].
      rewrite fmap_cons. cbn [fst snd] in *. by rewrite Hk, Hv, IH. }
    rewrite encode_cbor_obj_fold, fold_set_fresh; [by rewrite Hfix|].
    simpl. by rewrite Hfix.
Qed.

(** ** Node identities *)

Lemma slash_separated_inj (a a' d d' : string) :
  has_slash a = false → has_slash a' = false →
  a +:+ "/" +:+ d = a' +:+ "/" +:+ d' →
  a = a' ∧ d = d'.
Proof.
  revert a'. induction a as [|c a IH]; intros [|c' a'] Ha Ha' Heq; simpl in *.
  - by simplify_eq.
  - by simplify_eq.
  - by simplify_eq.
  - injection Heq as -> Heq.
    apply orb_false_iff in Ha as [_ Ha]. apply orb_false_iff in Ha' as [_ Ha'].
    by destruct (IH a' Ha Ha' Heq) as [-> ->].
Qed.

(** X19. Two envelopes get the same node identity only if their
    application ids and their device ids read the same, provided the
    application ids contain no slash. *)
Theorem node_id_injective (msg msg' : envelope) app_id dev_id app_id' dev_id' node :
  Dict.get "app_id" msg = Some app_id → Dict.get "dev_id" msg = Some dev_id →
  Dict.get "app_id" msg' = Some app_id' → Dict.get "dev_id" msg' = Some dev_id' →
  has_slash (py_str app_id) = false → has_slash (py_str app_id') = false →
  make_ttn_node_id msg = Ok node → make_ttn_node_id msg' = Ok node →
  py_str app_id = py_str app_id' ∧ py_str dev_id = py_str dev_id'.
Proof.
  intros Ha Hd Ha' Hd' Hslash Hslash'. unfold make_ttn_node_id.
  rewrite (field_Some _ _ _ Ha), (field_Some _ _ _ Hd),
    (field_Some _ _ _ Ha'), (field_Some _ _ _ Hd'). simpl.
  intros [= <-] [= Heq]. symmetry in Heq.
  by apply slash_separated_inj.
Qed.

Lemma node_id_injective_witness :
  make_ttn_node_id sample_msg
  = make_ttn_node_id [ ("dev_id", JStr "node-1"); ("app_id", JStr "weather") ]
  ∧ py_str (JStr "weather") = py_str (JStr "weather").
Proof.
  split; [reflexivity|].
  apply (node_id_injective sample_msg
           [ ("dev_id", JStr "node-1"); ("app_id", JStr "weather") ]
           (JStr "weather") (JStr "node-1") (JStr "weather") (JStr "node-1")
           "ttn/weather/node-1"); reflexivity.
Defined.

(** With a slash in the application id, or a number where the other
    envelope has its digits, distinct devices share one identity. *)
Example node_id_collisions :
  make_ttn_node_id [ ("app_id", JStr "a/b"); ("dev_id", JStr "c") ]
  = make_ttn_node_id [ ("app_id", JStr "a"); ("dev_id", JStr "b/c") ]
  ∧ make_ttn_node_id [ ("app_id", JStr "a"); ("dev_id", JInt 7) ]
    = make_ttn_node_id [ ("app_id", JStr "a"); ("dev_id", JStr "7") ].
Proof. split; reflexivity. Qed.

(** X21. An envelope with distinct keys is serialised with distinct keys:
    assigning [port] and [payload_raw] never duplicates a field. *)
Theorem produce_message_keys_distinct
    (cbor_dumps : list item → list byte) (b64encode : list byte → string)
    (json_dumps : envelope → string) (msg : envelope) payload port :
  NoDup (Dict.keys msg) →
  NoDup (Dict.keys (snd (produce_message cbor_dumps b64encode json_dumps
                                         msg payload port))).
Proof.
  intros Hnd. unfold produce_message. cbv zeta. cbn [snd].
  by do 2 apply dict_set_keys_NoDup.
Qed.

Lemma produce_message_keys_distinct_witness :
  NoDup (Dict.keys sample_msg)
  ∧ NoDup (Dict.keys (snd (produce_message sample_cbor sample_b64 sample_json
                                           sample_msg [node_config] CONFIG_PORT))).
Proof.
  assert (NoDup (Dict.keys sample_msg)) as Hnd
    by (apply (bool_decide_unpack _); vm_compute; exact I).
  split; [exact Hnd|].
  apply (produce_message_keys_distinct sample_cbor sample_b64 sample_json
           sample_msg [node_config] CONFIG_PORT Hnd).
Defined.

(** ** The sample packet again *)


Lemma port13_truncated_payload_witness :
  process_data sample_cbor sample_b64 sample_json ∅
               (Dict.set "port" (JInt 13) sample_msg) [xff; x07; x00]
  = Run [] ∅ (Dict.set "port" (JInt 13) sample_msg) (Raised ReadError).
Proof.
  apply (port13_truncated_payload sample_cbor sample_b64 sample_json ∅
           (Dict.set "port" (JInt 13) sample_msg) [xff; x07; x00]).
  - reflexivity.
  - vm_compute. lia.
Defined.

Lemma mixed_counter_types_raise_witness :
  process_data sample_cbor sample_b64 sample_json
               {[ "ttn/weather/node-1" := JStr "7" ]} sample_msg payload10
  = Run [] {[ "ttn/weather/node-1" := JStr "7" ]} sample_msg (Raised TypeError).
Proof.
  eapply (mixed_counter_types_raise sample_cbor sample_b64 sample_json
            {[ "ttn/weather/node-1" := JStr "7" ]} sample_msg payload10
            (JInt 10) _ _ "ttn/weather/node-1" 7 "7");
    [reflexivity..|].
  right. split; [reflexivity|]. apply lookup_singleton_eq.
Defined.

(** ** Extra values in whole payloads *)







